(** * Chouine rules engine: a shallow embedding of [backend/main.py]

    The card model, the rule engine (trick winner, legal moves, announces,
    scoring) and the game state machine (lead, follow, trump-seven exchange)
    are transcribed function by function from the Python source.  Python
    exceptions are modelled by an outcome paired with the game state reached
    when the exception escapes, because the engine mutates the [Game] object
    in place and a caller still observes that object after a failure. *)

From stdpp Require Import base decidable option list sets gmap strings.
From stdpp Require Import sorting.


(** ** Card model *)

Inductive Suit := HEARTS | DIAMONDS | CLUBS | SPADES.
Inductive Rank := rA | r10 | rK | rQ | rJ | r9 | r8 | r7.
Inductive By := player | opponent.
Inductive AnnounceType := none | mariage | tierce | quarteron | quinte | chouine.

#[global] Instance Suit_eq_dec : EqDecision Suit.
Proof. solve_decision. Defined.
#[global] Instance Rank_eq_dec : EqDecision Rank.
Proof. solve_decision. Defined.
#[global] Instance By_eq_dec : EqDecision By.
Proof. solve_decision. Defined.
#[global] Instance AnnounceType_eq_dec : EqDecision AnnounceType.
Proof. solve_decision. Defined.

Record Card := mkCard { suit : Suit; rank : Rank }.

#[global] Instance Card_eq_dec : EqDecision Card.
Proof. solve_decision. Defined.

Definition RANKS : list Rank := [rA; r10; rK; rQ; rJ; r9; r8; r7].
Definition SUITS : list Suit := [HEARTS; DIAMONDS; CLUBS; SPADES].

(** [RANK_STRENGTH] is the dictionary [{r: i for i, r in enumerate(RANKS)}]:
    the position of the rank in [RANKS], smaller meaning stronger. *)
Definition RANK_STRENGTH (r : Rank) : nat :=
  match r with
  | rA => 0 | r10 => 1 | rK => 2 | rQ => 3 | rJ => 4 | r9 => 5 | r8 => 6 | r7 => 7
  end.

Definition CARD_POINTS (r : Rank) : nat :=
  match r with
  | rA => 11 | r10 => 10 | rK => 4 | rQ => 3 | rJ => 2 | r9 => 0 | r8 => 0 | r7 => 0
  end.

(** [ANNOUNCE_POINTS]: (non-trump, trump) for the four scored announces. *)
Definition ANNOUNCE_POINTS (t : AnnounceType) : option (nat * nat) :=
  match t with
  | mariage => Some (20, 40)
  | tierce => Some (30, 60)
  | quarteron => Some (40, 80)
  | quinte => Some (50, 50)
  | none | chouine => None
  end.

Definition new_deck : list Card :=
  s ← SUITS; r ← RANKS; [mkCard s r].

Definition card_eq (a b : Card) : bool :=
  bool_decide (suit a = suit b) && bool_decide (rank a = rank b).

(** [remove_card] pops the first card equal to [card]; [None] stands for the
    [ValueError("Card not in hand")], in which case the list is untouched. *)
Fixpoint remove_card (hand : list Card) (card : Card) : option (list Card) :=
  match hand with
  | [] => None
  | c :: rest =>
      if card_eq c card then Some rest
      else cons c <$> remove_card rest card
  end.

(** ** Rule engine *)

Definition has_suit (hand : list Card) (s : Suit) : bool :=
  existsb (λ c, bool_decide (suit c = s)) hand.

Definition trumps (hand : list Card) (trump_suit : Suit) : list Card :=
  filter (λ c, suit c = trump_suit) hand.

Definition overtrumps (hand : list Card) (trump_suit : Suit) (target_trump : Card)
  : list Card :=
  filter (λ c, suit c = trump_suit
               ∧ RANK_STRENGTH (rank c) < RANK_STRENGTH (rank target_trump)) hand.

(** Python truthiness of a list. *)
Definition truthy {A} (l : list A) : bool :=
  match l with [] => false | _ => true end.

(** [trick_winner]: 0 if the leader wins, 1 if the follower wins. *)
Definition trick_winner (lead reply : Card) (trump_suit : Suit)
    (talon_is_not_empty : bool) : nat :=
  let lead_is_trump := bool_decide (suit lead = trump_suit) in
  let reply_is_trump := bool_decide (suit reply = trump_suit) in
  if reply_is_trump && negb lead_is_trump then 1
  else if lead_is_trump && negb reply_is_trump then 0
  else if bool_decide (suit reply = suit lead) then
    (if bool_decide (RANK_STRENGTH (rank lead) < RANK_STRENGTH (rank reply))
     then 0 else 1)
  else if talon_is_not_empty then 0
  else 0.

(** The same control flow, with every [return] labelled by the statement it
    comes from. *)
Inductive Branch :=
  | br_cut            (* reply is trump, lead is not *)
  | br_lead_trump     (* lead is trump, reply is not *)
  | br_same_suit
  | br_no_obligation  (* different suits, talon not empty *)
  | br_fallback.      (* different suits, talon empty: the last [return 0] *)

#[global] Instance Branch_eq_dec : EqDecision Branch.
Proof. solve_decision. Defined.

Definition trick_winner_traced (lead reply : Card) (trump_suit : Suit)
    (talon_is_not_empty : bool) : Branch * nat :=
  let lead_is_trump := bool_decide (suit lead = trump_suit) in
  let reply_is_trump := bool_decide (suit reply = trump_suit) in
  if reply_is_trump && negb lead_is_trump then (br_cut, 1)
  else if lead_is_trump && negb reply_is_trump then (br_lead_trump, 0)
  else if bool_decide (suit reply = suit lead) then
    (br_same_suit,
     if bool_decide (RANK_STRENGTH (rank lead) < RANK_STRENGTH (rank reply))
     then 0 else 1)
  else if talon_is_not_empty then (br_no_obligation, 0)
  else (br_fallback, 0).

Definition compute_legal_moves (hand : list Card) (lead_card : option Card)
    (trump_suit : Suit) (talon_is_not_empty : bool) : list Card :=
  match lead_card with
  | None => hand
  | Some lead =>
      if talon_is_not_empty then hand
      else
        let lead_suit := suit lead in
        if has_suit hand lead_suit then filter (λ c, suit c = lead_suit) hand
        else
          let t := trumps hand trump_suit in
          if truthy t then
            if bool_decide (lead_suit = trump_suit) then
              let ot := overtrumps hand trump_suit lead in
              if truthy ot then ot else t
            else t
          else hand
  end.

Definition is_brisque (c : Card) : bool :=
  bool_decide (rank c = rA) || bool_decide (rank c = r10).

Definition count_brisques (hand : list Card) : nat :=
  length (filter (λ c, is_brisque c = true) hand).

(** The set comprehension [{c["rank"] for c in hand if c["suit"] == suit}]. *)
Definition ranks_in (hand : list Card) (s : Suit) : list Rank :=
  rank <$> filter (λ c, suit c = s) hand.

Definition issubset (required ranks : list Rank) : bool :=
  forallb (λ r, bool_decide (r ∈ ranks)) required.

Definition has_mariage (hand : list Card) (s : Suit) : bool :=
  let ranks := ranks_in hand s in
  bool_decide (rK ∈ ranks) && bool_decide (rQ ∈ ranks).

Definition has_tierce (hand : list Card) (s : Suit) : bool :=
  issubset [rK; rQ; rJ] (ranks_in hand s).

Definition has_quarteron (hand : list Card) (s : Suit) : bool :=
  issubset [rA; rK; rQ; rJ] (ranks_in hand s).

Definition has_chouine (hand : list Card) (s : Suit) : bool :=
  issubset [rA; r10; rK; rQ; rJ] (ranks_in hand s).

Definition announce_points (ann_type : AnnounceType) (s : option Suit)
    (trump_suit : Suit) : nat :=
  match ANNOUNCE_POINTS ann_type with
  | None => 0
  | Some base =>
      if bool_decide (s = Some trump_suit) then base.2 else base.1
  end.

Definition validate_announce (hand : list Card) (ann_type : AnnounceType)
    (ann_suit : option Suit) : bool :=
  match ann_type with
  | none => true
  | quinte => bool_decide (5 ≤ count_brisques hand)
  | _ =>
      match ann_suit with
      | None => false
      | Some s =>
          match ann_type with
          | mariage => has_mariage hand s
          | tierce => has_tierce hand s
          | quarteron => has_quarteron hand s
          | chouine => has_chouine hand s
          | _ => false
          end
      end
  end.

Definition is_seven_of_trump (c : Card) (trump_suit : Suit) : bool :=
  bool_decide (suit c = trump_suit) && bool_decide (rank c = r7).

Definition ann_type_str (t : AnnounceType) : string :=
  match t with
  | none => "none" | mariage => "mariage" | tierce => "tierce"
  | quarteron => "quarteron" | quinte => "quinte" | chouine => "chouine"
  end.

Definition suit_str (s : Suit) : string :=
  match s with HEARTS => "H" | DIAMONDS => "D" | CLUBS => "C" | SPADES => "S" end.

Definition announce_key (ann_type : AnnounceType) (s : option Suit) : string :=
  match ann_type, s with
  | quinte, _ => "quinte"
  | _, None => ann_type_str ann_type +:+ ":?"
  | _, Some s => ann_type_str ann_type +:+ ":" +:+ suit_str s
  end.

(** ** The older rule helpers of [backend/game_state.py] *)

Module GameState.

Definition has_trump (hand : list Card) (trump_suit : Suit) : bool :=
  has_suit hand trump_suit.

(** [sorted(suited, key=...)] is a stable sort; insertion before the first
    strictly weaker card keeps equal keys in their original order. *)
Fixpoint insert_by_strength (c : Card) (l : list Card) : list Card :=
  match l with
  | [] => [c]
  | d :: rest =>
      if bool_decide (RANK_STRENGTH (rank d) ≤ RANK_STRENGTH (rank c))
      then d :: insert_by_strength c rest
      else c :: d :: rest
  end.

Definition sorted_by_strength (l : list Card) : list Card :=
  foldr insert_by_strength [] l.

Definition strongest_of_suit (cards : list Card) (s : Suit) : option Card :=
  head (sorted_by_strength (filter (λ c, suit c = s) cards)).

Definition can_overtrump (hand : list Card) (trump_suit : Suit)
    (current_trump : Card) : bool :=
  let trumps := filter (λ c, suit c = trump_suit) hand in
  match strongest_of_suit trumps trump_suit with
  | None => false
  | Some best =>
      bool_decide (RANK_STRENGTH (rank best) < RANK_STRENGTH (rank current_trump))
  end.

Definition legal_moves (hand : list Card) (lead_card : option Card)
    (trump_suit : Suit) (talon_not_empty : bool) : list Card :=
  match lead_card with
  | None => hand
  | Some lead =>
      if talon_not_empty then hand
      else
        let lead_suit := suit lead in
        if has_suit hand lead_suit then filter (λ c, suit c = lead_suit) hand
        else if has_trump hand trump_suit then
          let trumps := filter (λ c, suit c = trump_suit) hand in
          if bool_decide (lead_suit = trump_suit)
             && can_overtrump hand trump_suit lead
          then filter (λ c, RANK_STRENGTH (rank c) < RANK_STRENGTH (rank lead)) trumps
          else trumps
        else hand
  end.

Definition compare_same_suit (a b : Card) : Z :=
  if bool_decide (RANK_STRENGTH (rank a) < RANK_STRENGTH (rank b)) then (-1)%Z
  else 1%Z.

Definition trick_winner (lead reply : Card) (trump_suit : Suit)
    (talon_not_empty : bool) : nat :=
  let lead_is_trump := bool_decide (suit lead = trump_suit) in
  let reply_is_trump := bool_decide (suit reply = trump_suit) in
  if reply_is_trump && negb lead_is_trump then 1
  else if lead_is_trump && negb reply_is_trump then 0
  else if bool_decide (suit reply = suit lead) then
    (if bool_decide (compare_same_suit lead reply = (-1)%Z) then 0 else 1)
  else if talon_not_empty then 0
  else 0.

End GameState.

(** ** Game state *)

Inductive Winner := won (b : By) | draw.

(** The [last_trick] and [last_announce] dictionaries. *)
Record TrickSummary := mkTrickSummary {
  ts_lead_by : By; ts_lead_card : Card;
  ts_reply_by : By; ts_reply_card : Card;
  ts_winner : By; ts_talon_count : nat
}.

Record AnnounceEvent := mkAnnounceEvent {
  ae_by : By; ae_type : AnnounceType; ae_suit : option Suit
}.

Record Game := mkGame {
  game_id : string;
  trump_card : Card;
  trump_suit : Suit;
  talon : list Card;
  player_hand : list Card;
  opponent_hand : list Card;
  leader : nat;
  current_lead : option Card;
  current_lead_by : option By;
  turnup_in_stock : bool;
  player_tricks : list (list Card);
  opponent_tricks : list (list Card);
  last_trick_winner : option By;
  player_ann_points : nat;
  opponent_ann_points : nat;
  announced_player : gset string;
  announced_opponent : gset string;
  exchange7_done : bool;
  is_over : bool;
  winner : option Winner;
  last_trick : option TrickSummary;
  last_announce : option AnnounceEvent
}.

(** Field assignment [game.f = v], one setter per mutated field. *)
Definition with_trump_card (v : Card) (g : Game) : Game :=
  mkGame (game_id g) v (trump_suit g) (talon g) (player_hand g)
    (opponent_hand g) (leader g) (current_lead g) (current_lead_by g)
    (turnup_in_stock g) (player_tricks g) (opponent_tricks g)
    (last_trick_winner g) (player_ann_points g) (opponent_ann_points g)
    (announced_player g) (announced_opponent g) (exchange7_done g) (is_over g)
    (winner g) (last_trick g) (last_announce g).
Definition with_talon (v : list Card) (g : Game) : Game :=
  mkGame (game_id g) (trump_card g) (trump_suit g) v (player_hand g)
    (opponent_hand g) (leader g) (current_lead g) (current_lead_by g)
    (turnup_in_stock g) (player_tricks g) (opponent_tricks g)
    (last_trick_winner g) (player_ann_points g) (opponent_ann_points g)
    (announced_player g) (announced_opponent g) (exchange7_done g) (is_over g)
    (winner g) (last_trick g) (last_announce g).
Definition with_player_hand (v : list Card) (g : Game) : Game :=
  mkGame (game_id g) (trump_card g) (trump_suit g) (talon g) v
    (opponent_hand g) (leader g) (current_lead g) (current_lead_by g)
    (turnup_in_stock g) (player_tricks g) (opponent_tricks g)
    (last_trick_winner g) (player_ann_points g) (opponent_ann_points g)
    (announced_player g) (announced_opponent g) (exchange7_done g) (is_over g)
    (winner g) (last_trick g) (last_announce g).
Definition with_opponent_hand (v : list Card) (g : Game) : Game :=
  mkGame (game_id g) (trump_card g) (trump_suit g) (talon g) (player_hand g) v
    (leader g) (current_lead g) (current_lead_by g) (turnup_in_stock g)
    (player_tricks g) (opponent_tricks g) (last_trick_winner g)
    (player_ann_points g) (opponent_ann_points g) (announced_player g)
    (announced_opponent g) (exchange7_done g) (is_over g) (winner g)
    (last_trick g) (last_announce g).
Definition with_leader (v : nat) (g : Game) : Game :=
  mkGame (game_id g) (trump_card g) (trump_suit g) (talon g) (player_hand g)
    (opponent_hand g) v (current_lead g) (current_lead_by g)
    (turnup_in_stock g) (player_tricks g) (opponent_tricks g)
    (last_trick_winner g) (player_ann_points g) (opponent_ann_points g)
    (announced_player g) (announced_opponent g) (exchange7_done g) (is_over g)
    (winner g) (last_trick g) (last_announce g).
Definition with_current_lead (v : option Card) (g : Game) : Game :=
  mkGame (game_id g) (trump_card g) (trump_suit g) (talon g) (player_hand g)
    (opponent_hand g) (leader g) v (current_lead_by g) (turnup_in_stock g)
    (player_tricks g) (opponent_tricks g) (last_trick_winner g)
    (player_ann_points g) (opponent_ann_points g) (announced_player g)
    (announced_opponent g) (exchange7_done g) (is_over g) (winner g)
    (last_trick g) (last_announce g).
Definition with_current_lead_by (v : option By) (g : Game) : Game :=
  mkGame (game_id g) (trump_card g) (trump_suit g) (talon g) (player_hand g)
    (opponent_hand g) (leader g) (current_lead g) v (turnup_in_stock g)
    (player_tricks g) (opponent_tricks g) (last_trick_winner g)
    (player_ann_points g) (opponent_ann_points g) (announced_player g)
    (announced_opponent g) (exchange7_done g) (is_over g) (winner g)
    (last_trick g) (last_announce g).
Definition with_turnup_in_stock (v : bool) (g : Game) : Game :=
  mkGame (game_id g) (trump_card g) (trump_suit g) (talon g) (player_hand g)
    (opponent_hand g) (leader g) (current_lead g) (current_lead_by g) v
    (player_tricks g) (opponent_tricks g) (last_trick_winner g)
    (player_ann_points g) (opponent_ann_points g) (announced_player g)
    (announced_opponent g) (exchange7_done g) (is_over g) (winner g)
    (last_trick g) (last_announce g).
Definition with_player_tricks (v : list (list Card)) (g : Game) : Game :=
  mkGame (game_id g) (trump_card g) (trump_suit g) (talon g) (player_hand g)
    (opponent_hand g) (leader g) (current_lead g) (current_lead_by g)
    (turnup_in_stock g) v (opponent_tricks g) (last_trick_winner g)
    (player_ann_points g) (opponent_ann_points g) (announced_player g)
    (announced_opponent g) (exchange7_done g) (is_over g) (winner g)
    (last_trick g) (last_announce g).
Definition with_opponent_tricks (v : list (list Card)) (g : Game) : Game :=
  mkGame (game_id g) (trump_card g) (trump_suit g) (talon g) (player_hand g)
    (opponent_hand g) (leader g) (current_lead g) (current_lead_by g)
    (turnup_in_stock g) (player_tricks g) v (last_trick_winner g)
    (player_ann_points g) (opponent_ann_points g) (announced_player g)
    (announced_opponent g) (exchange7_done g) (is_over g) (winner g)
    (last_trick g) (last_announce g).
Definition with_last_trick_winner (v : option By) (g : Game) : Game :=
  mkGame (game_id g) (trump_card g) (trump_suit g) (talon g) (player_hand g)
    (opponent_hand g) (leader g) (current_lead g) (current_lead_by g)
    (turnup_in_stock g) (player_tricks g) (opponent_tricks g) v
    (player_ann_points g) (opponent_ann_points g) (announced_player g)
    (announced_opponent g) (exchange7_done g) (is_over g) (winner g)
    (last_trick g) (last_announce g).
Definition with_player_ann_points (v : nat) (g : Game) : Game :=
  mkGame (game_id g) (trump_card g) (trump_suit g) (talon g) (player_hand g)
    (opponent_hand g) (leader g) (current_lead g) (current_lead_by g)
    (turnup_in_stock g) (player_tricks g) (opponent_tricks g)
    (last_trick_winner g) v (opponent_ann_points g) (announced_player g)
    (announced_opponent g) (exchange7_done g) (is_over g) (winner g)
    (last_trick g) (last_announce g).
Definition with_opponent_ann_points (v : nat) (g : Game) : Game :=
  mkGame (game_id g) (trump_card g) (trump_suit g) (talon g) (player_hand g)
    (opponent_hand g) (leader g) (current_lead g) (current_lead_by g)
    (turnup_in_stock g) (player_tricks g) (opponent_tricks g)
    (last_trick_winner g) (player_ann_points g) v (announced_player g)
    (announced_opponent g) (exchange7_done g) (is_over g) (winner g)
    (last_trick g) (last_announce g).
Definition with_announced_player (v : gset string) (g : Game) : Game :=
  mkGame (game_id g) (trump_card g) (trump_suit g) (talon g) (player_hand g)
    (opponent_hand g) (leader g) (current_lead g) (current_lead_by g)
    (turnup_in_stock g) (player_tricks g) (opponent_tricks g)
    (last_trick_winner g) (player_ann_points g) (opponent_ann_points g) v
    (announced_opponent g) (exchange7_done g) (is_over g) (winner g)
    (last_trick g) (last_announce g).
Definition with_announced_opponent (v : gset string) (g : Game) : Game :=
  mkGame (game_id g) (trump_card g) (trump_suit g) (talon g) (player_hand g)
    (opponent_hand g) (leader g) (current_lead g) (current_lead_by g)
    (turnup_in_stock g) (player_tricks g) (opponent_tricks g)
    (last_trick_winner g) (player_ann_points g) (opponent_ann_points g)
    (announced_player g) v (exchange7_done g) (is_over g) (winner g)
    (last_trick g) (last_announce g).
Definition with_exchange7_done (v : bool) (g : Game) : Game :=
  mkGame (game_id g) (trump_card g) (trump_suit g) (talon g) (player_hand g)
    (opponent_hand g) (leader g) (current_lead g) (current_lead_by g)
    (turnup_in_stock g) (player_tricks g) (opponent_tricks g)
    (last_trick_winner g) (player_ann_points g) (opponent_ann_points g)
    (announced_player g) (announced_opponent g) v (is_over g) (winner g)
    (last_trick g) (last_announce g).
Definition with_is_over (v : bool) (g : Game) : Game :=
  mkGame (game_id g) (trump_card g) (trump_suit g) (talon g) (player_hand g)
    (opponent_hand g) (leader g) (current_lead g) (current_lead_by g)
    (turnup_in_stock g) (player_tricks g) (opponent_tricks g)
    (last_trick_winner g) (player_ann_points g) (opponent_ann_points g)
    (announced_player g) (announced_opponent g) (exchange7_done g) v
    (winner g) (last_trick g) (last_announce g).
Definition with_winner (v : option Winner) (g : Game) : Game :=
  mkGame (game_id g) (trump_card g) (trump_suit g) (talon g) (player_hand g)
    (opponent_hand g) (leader g) (current_lead g) (current_lead_by g)
    (turnup_in_stock g) (player_tricks g) (opponent_tricks g)
    (last_trick_winner g) (player_ann_points g) (opponent_ann_points g)
    (announced_player g) (announced_opponent g) (exchange7_done g)
    (is_over g) v (last_trick g) (last_announce g).
Definition with_last_trick (v : option TrickSummary) (g : Game) : Game :=
  mkGame (game_id g) (trump_card g) (trump_suit g) (talon g) (player_hand g)
    (opponent_hand g) (leader g) (current_lead g) (current_lead_by g)
    (turnup_in_stock g) (player_tricks g) (opponent_tricks g)
    (last_trick_winner g) (player_ann_points g) (opponent_ann_points g)
    (announced_player g) (announced_opponent g) (exchange7_done g) (is_over g)
    (winner g) v (last_announce g).
Definition with_last_announce (v : option AnnounceEvent) (g : Game) : Game :=
  mkGame (game_id g) (trump_card g) (trump_suit g) (talon g) (player_hand g)
    (opponent_hand g) (leader g) (current_lead g) (current_lead_by g)
    (turnup_in_stock g) (player_tricks g) (opponent_tricks g)
    (last_trick_winner g) (player_ann_points g) (opponent_ann_points g)
    (announced_player g) (announced_opponent g) (exchange7_done g) (is_over g)
    (winner g) (last_trick g) v.

(** [new_game]: [deck] stands for the shuffled [new_deck()] and [game_id] for
    the fresh uuid.  [deck[10]] is the only subscript that can fail. *)
Definition new_game (game_id : string) (deck : list Card) : option Game :=
  trump ← deck !! 10;
  Some (mkGame game_id trump (suit trump) (drop 11 deck)
          (take 5 deck) (take 5 (drop 5 deck)) 0
          None None true [] [] None 0 0 ∅ ∅ false false None None None).

Definition talon_not_empty (game : Game) : bool :=
  bool_decide (0 < length (talon game)).

Definition au_sept_required (game : Game) : bool :=
  bool_decide (length (talon game) = 2) && negb (exchange7_done game).

Definition hand_of (by_ : By) (game : Game) : list Card :=
  match by_ with player => player_hand game | opponent => opponent_hand game end.

Definition with_hand_of (by_ : By) (v : list Card) : Game → Game :=
  match by_ with player => with_player_hand v | opponent => with_opponent_hand v end.

(** ** Scores *)

Definition compute_cards_points (tricks : list (list Card)) : nat :=
  sum_list (trick ← tricks; c ← trick; [CARD_POINTS (rank c)]).

Record RunningSide := mkRunningSide {
  rs_cards : nat; rs_announces : nat; rs_total : nat
}.

Record RunningScores := mkRunningScores {
  rs_player : RunningSide; rs_opponent : RunningSide; dix_de_der_pending : bool
}.

Record FinalSide := mkFinalSide {
  fs_cards : nat; fs_announces : nat; fs_dix_de_der : nat; fs_total : nat
}.

Record FinalScores := mkFinalScores {
  fs_player : FinalSide; fs_opponent : FinalSide
}.

Definition scores_so_far (game : Game) : RunningScores :=
  mkRunningScores
    (mkRunningSide (compute_cards_points (player_tricks game))
       (player_ann_points game)
       (compute_cards_points (player_tricks game) + player_ann_points game))
    (mkRunningSide (compute_cards_points (opponent_tricks game))
       (opponent_ann_points game)
       (compute_cards_points (opponent_tricks game) + opponent_ann_points game))
    true.

Definition final_scores (game : Game) : FinalScores :=
  let p := compute_cards_points (player_tricks game) + player_ann_points game in
  let o := compute_cards_points (opponent_tricks game) + opponent_ann_points game in
  let '(p, o) :=
    if bool_decide (last_trick_winner game = Some player) then (p + 10, o)
    else if bool_decide (last_trick_winner game = Some opponent) then (p, o + 10)
    else (p, o) in
  mkFinalScores
    (mkFinalSide (compute_cards_points (player_tricks game))
       (player_ann_points game)
       (if bool_decide (last_trick_winner game = Some player) then 10 else 0)
       p)
    (mkFinalSide (compute_cards_points (opponent_tricks game))
       (opponent_ann_points game)
       (if bool_decide (last_trick_winner game = Some opponent) then 10 else 0)
       o).

(** ** The engine monad

    A computation receives the game object, may assign to its fields, and
    either returns a value or raises [ValueError(msg)].  In both cases the
    game object as it then stands is part of the result. *)

Inductive outcome (A : Type) :=
  | Done (a : A)
  | Raised (msg : string).
Arguments Done {A} a.
Arguments Raised {A} msg.

Definition Eng (A : Type) : Type := Game → outcome A * Game.

Definition ret {A} (a : A) : Eng A := λ g, (Done a, g).
Definition bind {A B} (m : Eng A) (k : A → Eng B) : Eng B := λ g,
  match m g with
  | (Done a, g') => k a g'
  | (Raised msg, g') => (Raised msg, g')
  end.

Notation "'let!' x := m 'in' k" := (bind m (λ x, k))
  (at level 10, x pattern, m at level 100, k at level 200).
Notation "m >> k" := (bind m (λ _, k))
  (at level 100, k at level 200, right associativity).

Definition raise {A} (msg : string) : Eng A := λ g, (Raised msg, g).
Definition gets {A} (f : Game → A) : Eng A := λ g, (Done (f g), g).
Definition modify (f : Game → Game) : Eng unit := λ g, (Done tt, f g).
Definition when (b : bool) (m : Eng unit) : Eng unit := if b then m else ret tt.

Definition raised {A} (r : outcome A * Game) : Prop :=
  match r.1 with Raised _ => True | Done _ => False end.

#[global] Instance raised_dec {A} (r : outcome A * Game) : Decision (raised r).
Proof. unfold raised. destruct (r.1); apply _. Defined.

(** ** State-machine operations *)

Definition draw_from_stock : Eng (option Card) :=
  let! t := gets talon in
  match t with
  | c :: rest => modify (with_talon rest) >> ret (Some c)
  | [] =>
      let! in_stock := gets turnup_in_stock in
      if in_stock then
        modify (with_turnup_in_stock false) >>
        let! c := gets trump_card in
        ret (Some c)
      else ret None
  end.

Definition maybe_finish_game : Eng unit :=
  let! over := gets is_over in
  if over then ret tt else
  let! lead := gets current_lead in
  if bool_decide (lead ≠ None) then ret tt else
  let! ph := gets player_hand in
  let! oh := gets opponent_hand in
  if bool_decide (length ph ≠ 0 ∨ length oh ≠ 0) then ret tt else
  modify (with_is_over true) >>
  let! fs := gets final_scores in
  if bool_decide (fs_total (fs_opponent fs) < fs_total (fs_player fs))
  then modify (with_winner (Some (won player)))
  else if bool_decide (fs_total (fs_player fs) < fs_total (fs_opponent fs))
  then modify (with_winner (Some (won opponent)))
  else modify (with_winner (Some draw)).

Definition announced_of (by_ : By) (game : Game) : gset string :=
  match by_ with
  | player => announced_player game
  | opponent => announced_opponent game
  end.

Definition with_announced_of (by_ : By) (v : gset string) : Game → Game :=
  match by_ with
  | player => with_announced_player v
  | opponent => with_announced_opponent v
  end.

Definition apply_announce (by_ : By) (ann_type : AnnounceType)
    (ann_suit : option Suit) (show : bool) (hand_snapshot : list Card) : Eng unit :=
  if bool_decide (ann_type = none) then ret tt else
  if negb show then raise "announce must be shown (show=true)" else
  if negb (validate_announce hand_snapshot ann_type ann_suit)
  then raise "invalid announce for your hand" else
  let key := announce_key ann_type ann_suit in
  let! announced_set := gets (announced_of by_) in
  if bool_decide (key ∈ announced_set) then raise "announce already made earlier" else
  modify (with_announced_of by_ ({[key]} ∪ announced_set)) >>
  modify (with_last_announce (Some (mkAnnounceEvent by_ ann_type ann_suit))) >>
  if bool_decide (ann_type = chouine) then
    modify (with_is_over true) >>
    modify (with_winner (Some (won by_)))
  else
    let! trump := gets trump_suit in
    let pts := announce_points ann_type ann_suit trump in
    match by_ with
    | player => modify (λ g, with_player_ann_points (player_ann_points g + pts) g)
    | opponent => modify (λ g, with_opponent_ann_points (opponent_ann_points g + pts) g)
    end.

Definition append_to_hand (by_ : By) (drawn : option Card) : Eng unit :=
  match drawn with
  | Some c => modify (λ g, with_hand_of by_ (hand_of by_ g ++ [c]) g)
  | None => ret tt
  end.

Definition resolve_trick (lead_by : By) (lead_card : Card)
    (follow_by : By) (follow_card : Card) : Eng unit :=
  let! trump := gets trump_suit in
  let! tne := gets talon_not_empty in
  let rel := trick_winner lead_card follow_card trump tne in
  let winner := if bool_decide (rel = 0) then lead_by else follow_by in
  let trick_cards := [lead_card; follow_card] in
  match winner with
  | player => modify (λ g, with_player_tricks (player_tricks g ++ [trick_cards]) g)
  | opponent => modify (λ g, with_opponent_tricks (opponent_tricks g ++ [trick_cards]) g)
  end >>
  modify (with_last_trick_winner (Some winner)) >>
  modify (with_leader (match winner with player => 0 | opponent => 1 end)) >>
  let! stock := gets (λ g, bool_decide (0 < length (talon g)) || turnup_in_stock g) in
  when stock (
    let! (p, o) :=
      match winner with
      | player =>
          let! p := draw_from_stock in let! o := draw_from_stock in ret (p, o)
      | opponent =>
          let! o := draw_from_stock in let! p := draw_from_stock in ret (p, o)
      end in
    append_to_hand player p >>
    append_to_hand opponent o) >>
  let! n := gets (λ g, length (talon g)) in
  modify (with_last_trick
            (Some (mkTrickSummary lead_by lead_card follow_by follow_card winner n))) >>
  modify (with_current_lead None) >>
  modify (with_current_lead_by None) >>
  maybe_finish_game.

(** The [announce] argument: a dictionary with optional ["type"] and ["suit"]
    entries, or nothing. *)
Record Announce := mkAnnounce {
  ann_type_entry : option AnnounceType;
  ann_suit_entry : option Suit
}.

Definition get_type (announce : option Announce) : AnnounceType :=
  default none (announce ≫= ann_type_entry).

Definition get_suit (announce : option Announce) : option Suit :=
  announce ≫= ann_suit_entry.

Definition remove_from_hand (by_ : By) (card : Card) : Eng unit :=
  let! hand := gets (hand_of by_) in
  match remove_card hand card with
  | Some hand' => modify (with_hand_of by_ hand')
  | None => raise "Card not in hand"
  end.

Definition leader_play (by_ : By) (card : Card) (au_sept_flag : bool)
    (announce : option Announce) (show : bool) : Eng unit :=
  let! over := gets is_over in
  if over then raise "game over" else
  let! lead := gets current_lead in
  if bool_decide (lead ≠ None) then raise "trick already started" else
  let! ldr := gets leader in
  if bool_decide (ldr = 0) && bool_decide (by_ ≠ player)
     || bool_decide (ldr = 1) && bool_decide (by_ ≠ opponent)
  then raise "not leader" else
  let! au_sept := gets au_sept_required in
  if au_sept && negb au_sept_flag
  then raise "au sept required (talon=2 & exchange not done)" else
  let! hand_snapshot := gets (hand_of by_) in
  let ann_type := get_type announce in
  let ann_suit := get_suit announce in
  apply_announce by_ ann_type ann_suit show hand_snapshot >>
  let! over := gets is_over in
  if over then ret tt else
  remove_from_hand by_ card >>
  modify (with_current_lead (Some card)) >>
  modify (with_current_lead_by (Some by_)).

Definition follower_play (by_ : By) (card : Card)
    (announce : option Announce) (show : bool) : Eng unit :=
  let! over := gets is_over in
  if over then raise "game over" else
  let! lead := gets current_lead in
  let! lead_by := gets current_lead_by in
  match lead, lead_by with
  | Some lead_card, Some lead_by =>
      if bool_decide (by_ = lead_by) then raise "leader cannot follow" else
      let! tne := gets talon_not_empty in
      let! hand := gets (hand_of by_) in
      let! trump := gets trump_suit in
      let legal := compute_legal_moves hand (Some lead_card) trump false in
      if negb tne && negb (existsb (λ c, card_eq c card) legal)
      then raise "illegal move (must follow/cut/overtrump)" else
      let hand_snapshot := hand in
      let ann_type := get_type announce in
      let ann_suit := get_suit announce in
      apply_announce by_ ann_type ann_suit show hand_snapshot >>
      let! over := gets is_over in
      if over then ret tt else
      remove_from_hand by_ card >>
      resolve_trick lead_by lead_card by_ card
  | _, _ => raise "no lead"
  end.

Definition exchange7 : Eng unit :=
  let! over := gets is_over in
  if over then raise "game over" else
  let! done7 := gets exchange7_done in
  if done7 then raise "exchange already done" else
  let! tne := gets talon_not_empty in
  if negb tne then raise "cannot exchange when talon empty" else
  let! hand := gets player_hand in
  let! trump := gets trump_suit in
  match list_find (λ c, is_seven_of_trump c trump = true) hand with
  | None => raise "you don't have the 7 of trump"
  | Some (idx, seven) =>
      let! turnup := gets trump_card in
      modify (with_player_hand (<[idx := turnup]> hand)) >>
      modify (with_trump_card seven) >>
      modify (with_exchange7_done true)
  end.

(** ** Reachable game states

    A game starts from a shuffle of the deck and is then only touched by the
    three operations and by [maybe_finish_game], which the HTTP layer calls
    after a failed operation.  A call that raises still leaves its game
    object behind, so the state after any call is a reachable state. *)

Inductive Op :=
  | op_lead (by_ : By) (card : Card) (au_sept_flag : bool)
      (announce : option Announce) (show : bool)
  | op_follow (by_ : By) (card : Card) (announce : option Announce) (show : bool)
  | op_exchange7
  | op_maybe_finish.

Definition exec (op : Op) : Eng unit :=
  match op with
  | op_lead by_ card au_sept_flag announce show =>
      leader_play by_ card au_sept_flag announce show
  | op_follow by_ card announce show => follower_play by_ card announce show
  | op_exchange7 => exchange7
  | op_maybe_finish => maybe_finish_game
  end.

Definition run (ops : list Op) (g : Game) : Game :=
  foldl (λ g op, (exec op g).2) g ops.

Inductive reachable : Game → Prop :=
  | reachable_new game_id deck g :
      deck ≡ₚ new_deck → new_game game_id deck = Some g → reachable g
  | reachable_step g op :
      reachable g → reachable (exec op g).2.

(** ** Diagnostics and the public view *)

(** [invariant_warning]: the hand sizes are compared as Python integers, so
    [len(hand) - 1] is [-1] for an empty hand. *)
Definition invariant_warning (game : Game) : option string :=
  let ph := Z.of_nat (length (player_hand game)) in
  let oh := Z.of_nat (length (opponent_hand game)) in
  match current_lead game, current_lead_by game with
  | Some _, Some lead_by =>
      match lead_by with
      | player =>
          if bool_decide (ph ≠ (oh - 1)%Z)
          then Some "invariant: during trick player should have one less card than opponent"
          else None
      | opponent =>
          if bool_decide (oh ≠ (ph - 1)%Z)
          then Some "invariant: during trick opponent should have one less card than player"
          else None
      end
  | _, _ =>
      if bool_decide (ph ≠ oh)
      then Some "invariant: between tricks hands should be same size"
      else None
  end.

Record PublicHands := mkPublicHands {
  hands_player : list Card; hands_opponent_count : nat
}.

Record PublicLead := mkPublicLead { pl_by : option By; pl_card : Card }.

Record PublicAnnounced := mkPublicAnnounced {
  pa_player : list string; pa_opponent : list string
}.

Record PublicState := mkPublicState {
  ps_game_id : string;
  ps_trump : Card;
  ps_trump_suit : Suit;
  ps_talon_count : nat;
  ps_leader : By;
  ps_hands : PublicHands;
  ps_current_lead : option PublicLead;
  ps_last_trick : option TrickSummary;
  ps_scores_so_far : RunningScores;
  ps_final_score : option FinalScores;
  ps_is_over : bool;
  ps_winner : option Winner;
  ps_can_exchange7 : bool;
  ps_au_sept_required : bool;
  ps_stock_count : nat;
  ps_turnup_in_stock : bool;
  ps_announced : PublicAnnounced;
  ps_last_announce : option AnnounceEvent;
  ps_warning : option string
}.

(** [sorted(list(keys))]: the keys in increasing string order. *)
Definition sorted_keys (keys : gset string) : list string :=
  merge_sort String.le (elements keys).

Definition public_state (game : Game) : PublicState :=
  mkPublicState
    (game_id game)
    (trump_card game)
    (trump_suit game)
    (length (talon game))
    (if bool_decide (leader game = 0) then player else opponent)
    (mkPublicHands (player_hand game) (length (opponent_hand game)))
    (match current_lead game with
     | Some c => Some (mkPublicLead (current_lead_by game) c)
     | None => None
     end)
    (last_trick game)
    (scores_so_far game)
    (if is_over game then Some (final_scores game) else None)
    (is_over game)
    (winner game)
    (negb (exchange7_done game) && talon_not_empty game
     && existsb (λ c, is_seven_of_trump c (trump_suit game)) (player_hand game))
    (au_sept_required game)
    (length (talon game) + (if turnup_in_stock game then 1 else 0))
    (turnup_in_stock game)
    (mkPublicAnnounced (sorted_keys (announced_player game))
       (sorted_keys (announced_opponent game)))
    (last_announce game)
    (invariant_warning game).

(** ** Opponent policy *)

(** [possibles.sort(key=lambda x: x[2], reverse=True)]: a stable sort by
    decreasing points; entries with equal points keep their order. *)
Fixpoint insert_by_points (x : AnnounceType * option Suit * nat)
    (l : list (AnnounceType * option Suit * nat))
  : list (AnnounceType * option Suit * nat) :=
  match l with
  | [] => [x]
  | y :: rest =>
      if bool_decide (x.2 < y.2) then y :: insert_by_points x rest
      else x :: y :: rest
  end.

Definition sort_by_points (l : list (AnnounceType * option Suit * nat))
  : list (AnnounceType * option Suit * nat) :=
  foldr insert_by_points [] l.

(** The list [possibles] before it is sorted. *)
Definition possibles (trump : Suit) (hand_snapshot : list Card)
  : list (AnnounceType * option Suit * nat) :=
  (s ← SUITS;
   (if has_mariage hand_snapshot s
    then [(mariage, Some s, announce_points mariage (Some s) trump)] else [])
   ++ (if has_tierce hand_snapshot s
       then [(tierce, Some s, announce_points tierce (Some s) trump)] else [])
   ++ (if has_quarteron hand_snapshot s
       then [(quarteron, Some s, announce_points quarteron (Some s) trump)] else []))
  ++ (if bool_decide (5 ≤ count_brisques hand_snapshot)
      then [(quinte, None, 50)] else []).

(** [ai_choose_best_announce] returns [(type, suit, show)]. *)
Definition ai_choose_best_announce (game : Game) (hand_snapshot : list Card)
  : AnnounceType * option Suit * bool :=
  match list_find (λ s, has_chouine hand_snapshot s = true
                        ∧ announce_key chouine (Some s) ∉ announced_opponent game)
          SUITS with
  | Some (_, s) => (chouine, Some s, true)
  | None =>
      match list_find (λ x, announce_key x.1.1 x.1.2 ∉ announced_opponent game)
              (sort_by_points (possibles (trump_suit game) hand_snapshot)) with
      | Some (_, (t, s, _)) => (t, s, true)
      | None => (none, None, false)
      end
  end.

(** Python's order on tuples of integers. *)
Fixpoint tuple_lt (a b : list nat) : bool :=
  match a, b with
  | x :: a', y :: b' =>
      if bool_decide (x < y) then true
      else if bool_decide (y < x) then false
      else tuple_lt a' b'
  | [], _ :: _ => true
  | _, [] => false
  end.

(** [min(l, key=key)]: the first element whose key is minimal; [None] for the
    [ValueError] on an empty list. *)
Definition py_min {A} (key : A → list nat) (l : list A) : option A :=
  match l with
  | [] => None
  | x :: rest =>
      Some (foldl (λ best c, if tuple_lt (key c) (key best) then c else best)
              x rest)
  end.

Definition min_or_raise {A} (key : A → list nat) (l : list A) : Eng A :=
  match py_min key l with
  | Some x => ret x
  | None => raise "min() arg is an empty sequence"
  end.

Definition win_key (c : Card) : list nat :=
  [CARD_POINTS (rank c); RANK_STRENGTH (rank c)].

Definition dump_key (trump : Suit) (c : Card) : list nat :=
  [if is_brisque c then 1 else 0;
   if bool_decide (suit c = trump) then 1 else 0;
   CARD_POINTS (rank c);
   RANK_STRENGTH (rank c)].

Definition ai_choose_follow_card (lead_card : Card) : Eng Card :=
  let! hand := gets opponent_hand in
  if negb (truthy hand) then raise "opponent has no cards" else
  let! trump := gets trump_suit in
  let! tne := gets talon_not_empty in
  let legal := compute_legal_moves hand (Some lead_card) trump tne in
  let winning :=
    filter (λ c, trick_winner lead_card c trump tne = 1) legal in
  if truthy winning then min_or_raise win_key winning
  else min_or_raise (dump_key trump) legal.

(** * Vocabulary of the properties *)

(** Unfolding of the monad operations. *)
Ltac eng_unfold := unfold when, bind, gets, modify, raise, ret in *.

(** Case analysis on an innermost [match] or [if] of the goal. *)
Ltac case_inner :=
  match goal with
  | |- context [match ?x with _ => _ end] =>
      lazymatch x with
      | context [match _ with _ => _ end] => fail
      | _ => destruct x eqn:?
      end
  end.

Ltac eng_cases := repeat (case_inner; cbn in *; simplify_eq; try done).

(** The part of the game object that announces and the end-of-game check
    never write. *)
Definition board (g : Game) :=
  (trump_card g, trump_suit g, talon g, player_hand g, opponent_hand g,
   leader g, current_lead g, current_lead_by g, turnup_in_stock g,
   player_tricks g, opponent_tricks g, last_trick_winner g,
   exchange7_done g, last_trick g).

(** The reserved turnup card, while nobody has drawn it. *)
Definition turnup_zone (g : Game) : list Card :=
  if turnup_in_stock g then [trump_card g] else [].

Definition lead_zone (g : Game) : list Card := option_list (current_lead g).

(** The six zones the card-conservation property lists. *)
Definition listed_zones (g : Game) : list Card :=
  player_hand g ++ opponent_hand g ++ talon g ++ turnup_zone g
  ++ concat (player_tricks g) ++ concat (opponent_tricks g).

(** The same with the card of the trick in progress. *)
Definition all_zones (g : Game) : list Card := listed_zones g ++ lead_zone g.

(** While the turnup is in the stock the talon has an odd number of cards;
    once it is drawn the talon is empty. *)
Definition stock_ok (g : Game) : Prop :=
  if turnup_in_stock g then Nat.odd (length (talon g)) = true else talon g = [].

Record game_inv (g : Game) : Prop := mk_game_inv {
  inv_cards : all_zones g ≡ₚ new_deck;
  inv_stock : stock_ok g
}.

(** The stock is exhausted: talon empty and turnup drawn. *)
Definition stock_exhausted (g : Game) : Prop :=
  talon g = [] ∧ turnup_in_stock g = false.

(** The game dealt from the deck left in the order of [new_deck]: the player
    holds the five top hearts, the turnup is the king of diamonds. *)
Definition initial_game : Game :=
  mkGame "g" (mkCard DIAMONDS rK) DIAMONDS (drop 11 new_deck)
    (take 5 new_deck) (take 5 (drop 5 new_deck)) 0
    None None true [] [] None 0 0 ∅ ∅ false false None None None.

(** A lead of a card the player does not hold, with a valid shown mariage. *)
Definition bad_lead : Eng unit :=
  leader_play player (mkCard SPADES r7) false
    (Some (mkAnnounce (Some mariage) (Some HEARTS))) true.

(** Twelve tricks and the lead of the thirteenth, from [initial_game]: the
    talon runs out after the eleventh trick, the twelfth takes the turnup
    out of the opponent's hand. *)
Definition discard_trace : list Op :=
  [ op_lead player (mkCard HEARTS rA) true None false;
    op_follow opponent (mkCard DIAMONDS r10) None false;
    op_lead opponent (mkCard HEARTS r9) true None false;
    op_follow player (mkCard DIAMONDS rJ) None false;
    op_lead player (mkCard HEARTS r10) true None false;
    op_follow opponent (mkCard DIAMONDS r8) None false;
    op_lead opponent (mkCard HEARTS r8) true None false;
    op_follow player (mkCard CLUBS rA) None false;
    op_lead opponent (mkCard HEARTS r7) true None false;
    op_follow player (mkCard CLUBS rK) None false;
    op_lead opponent (mkCard DIAMONDS rA) true None false;
    op_follow player (mkCard CLUBS rJ) None false;
    op_lead opponent (mkCard DIAMONDS rQ) true None false;
    op_follow player (mkCard CLUBS r8) None false;
    op_lead opponent (mkCard DIAMONDS r7) true None false;
    op_follow player (mkCard SPADES rA) None false;
    op_lead opponent (mkCard CLUBS r10) true None false;
    op_follow player (mkCard SPADES rK) None false;
    op_lead opponent (mkCard CLUBS rQ) true None false;
    op_follow player (mkCard SPADES rJ) None false;
    op_lead opponent (mkCard CLUBS r9) true None false;
    op_follow player (mkCard SPADES r8) None false;
    op_lead opponent (mkCard CLUBS r7) true None false;
    op_follow player (mkCard DIAMONDS rK) None false;
    op_lead player (mkCard HEARTS rK) true None false ].

Definition discard_state : Game := run discard_trace initial_game.

(** Every call of the trace returns normally. *)
Fixpoint all_done (ops : list Op) (g : Game) : bool :=
  match ops with
  | [] => true
  | op :: ops =>
      match exec op g with
      | (Done _, g') => all_done ops g'
      | (Raised _, _) => false
      end
  end.

(** The state right after the first lead. *)
Definition first_lead_state : Game :=
  run [op_lead player (mkCard HEARTS rA) false None false] initial_game.

(** Five tricks after which the player holds the seven of diamonds. *)
Definition seven_in_hand_state : Game :=
  run [op_lead player (mkCard HEARTS rA) true None false;
       op_follow opponent (mkCard HEARTS r9) None false;
       op_lead player (mkCard HEARTS r10) true None false;
       op_follow opponent (mkCard HEARTS r8) None false;
       op_lead player (mkCard HEARTS rK) true None false;
       op_follow opponent (mkCard HEARTS r7) None false;
       op_lead player (mkCard HEARTS rQ) true None false;
       op_follow opponent (mkCard DIAMONDS rA) None false;
       op_lead opponent (mkCard DIAMONDS r10) true None false;
       op_follow player (mkCard HEARTS rJ) None false] initial_game.

(** The last-trick bonus of a side. *)
Definition dix_de_der (b : By) (g : Game) : nat :=
  if bool_decide (last_trick_winner g = Some b) then 10 else 0.

Definition chouine_of (s : Suit) : option Announce :=
  Some (mkAnnounce (Some chouine) (Some s)).

Definition leader_of (by_ : By) : nat :=
  match by_ with player => 0 | opponent => 1 end.

Definition chouine_hand : list Card :=
  [mkCard HEARTS rA; mkCard HEARTS r10; mkCard HEARTS rK; mkCard HEARTS rQ;
   mkCard HEARTS rJ].

(** ** Vocabulary of the further properties *)

Definition other (b : By) : By :=
  match b with player => opponent | opponent => player end.

Definition tricks_of (b : By) (g : Game) : list (list Card) :=
  match b with player => player_tricks g | opponent => opponent_tricks g end.

(** The side [resolve_trick] declares winner. *)
Definition trick_winner_side (lead_by : By) (lead_card : Card) (follow_by : By)
    (follow_card : Card) (g : Game) : By :=
  if bool_decide (trick_winner lead_card follow_card (trump_suit g)
                    (talon_not_empty g) = 0)
  then lead_by else follow_by.

(** What the play of cards never writes. *)
Definition ledger (g : Game) :=
  (game_id g, trump_suit g, exchange7_done g, player_ann_points g,
   opponent_ann_points g, announced_player g, announced_opponent g,
   last_announce g).

(** The end-of-game test of [maybe_finish_game]. *)
Definition hands_exhausted (g : Game) : bool :=
  bool_decide (current_lead g = None) && bool_decide (player_hand g = [])
  && bool_decide (opponent_hand g = []).

(** Whose turn it is and how many cards each side holds: between tricks the
    hands have the same size; during a trick the leader is the side recorded
    in [current_lead_by] and holds one card less. *)
Definition turn_ok (g : Game) : Prop :=
  leader g ≤ 1
  ∧ match current_lead g, current_lead_by g with
    | None, None => length (player_hand g) = length (opponent_hand g)
    | Some _, Some b =>
        S (length (hand_of b g)) = length (hand_of (other b) g)
        ∧ leader g = leader_of b
    | _, _ => False
    end.

Definition ann_points_of (b : By) (g : Game) : nat :=
  match b with player => player_ann_points g | opponent => opponent_ann_points g end.

(** Card points of a list of cards. *)
Definition points (cards : list Card) : nat :=
  sum_list_with (λ c, CARD_POINTS (rank c)) cards.

(** The announce dictionary [{"type": t, "suit": s}]. *)
Definition announce_of (t : AnnounceType) (s : option Suit) : option Announce :=
  Some (mkAnnounce (Some t) s).

Definition mariage_lead_state : Game :=
  run [op_lead player (mkCard HEARTS rA) false (announce_of mariage (Some HEARTS)) true]
    initial_game.

(** The hand of a side just before the draw: the follower's without the
    card played. *)
Definition hand_before_draw (follow_by : By) (hand' : list Card) (g : Game)
    (b : By) : list Card :=
  if bool_decide (b = follow_by) then hand' else hand_of b g.

(** The history of a game: the tricks of a run of calls. *)

(** The trick a call completes, if any: a follow that takes the lead card
    off the table.  The trick is given with the side that wins it by the
    rule engine and with its two cards, the lead card first. *)
Definition resolved_trick (op : Op) (g : Game) : option (By * list Card) :=
  match op, current_lead g, current_lead_by g, current_lead (exec op g).2 with
  | op_follow by_ card _ _, Some lead_card, Some lead_by, None =>
      Some (if bool_decide (trick_winner lead_card card (trump_suit g)
                              (talon_not_empty g) = 0)
            then lead_by else by_,
            [lead_card; card])
  | _, _, _, _ => None
  end.

(** The tricks completed along a run of calls, oldest first. *)
Fixpoint tricks_played (ops : list Op) (g : Game) : list (By * list Card) :=
  match ops with
  | [] => []
  | op :: ops =>
      option_list (resolved_trick op g) ++ tricks_played ops (exec op g).2
  end.

(** Their winners, and the tricks one side has won. *)
Definition trick_winners (ops : list Op) (g : Game) : list By :=
  (tricks_played ops g).*1.

Definition won_by (b : By) (tricks : list (By * list Card)) : list (list Card) :=
  (filter (λ t, t.1 = b) tricks).*2.

Definition tricks_won (b : By) (ops : list Op) (g : Game) : list (list Card) :=
  won_by b (tricks_played ops g).


(** * Properties of the rule engine *)

Section RuleEngine.

Implicit Types (hand : list Card) (lead reply card : Card) (trump : Suit).

Lemma card_eq_iff (a b : Card) : card_eq a b = true ↔ a = b.
Proof.
  unfold card_eq. destruct a, b; simpl.
  rewrite andb_true_iff, !bool_decide_eq_true. split.
  - intros [-> ->]. reflexivity.
  - intros [= -> ->]. done.
Qed.

(** [RANK_STRENGTH r] is the position of [r] in the order A,10,K,Q,J,9,8,7. *)
Lemma RANK_STRENGTH_enumerate (r : Rank) : RANKS !! RANK_STRENGTH r = Some r.
Proof. by destruct r. Qed.

Lemma RANK_STRENGTH_inj (r1 r2 : Rank) :
  RANK_STRENGTH r1 = RANK_STRENGTH r2 → r1 = r2.
Proof.
  intros Heq. pose proof (RANK_STRENGTH_enumerate r1) as H1.
  rewrite Heq, RANK_STRENGTH_enumerate in H1. congruence.
Qed.

Lemma has_suit_true hand (s : Suit) :
  has_suit hand s = true ↔ ∃ c, c ∈ hand ∧ suit c = s.
Proof.
  unfold has_suit. rewrite existsb_exists. split.
  - intros (c & Hin & Hs). exists c. rewrite list_elem_of_In.
    by apply bool_decide_eq_true in Hs.
  - intros (c & Hin & Hs). exists c. rewrite <- list_elem_of_In.
    by rewrite bool_decide_eq_true.
Qed.

Lemma has_suit_false hand (s : Suit) :
  has_suit hand s = false ↔ ∀ c, c ∈ hand → suit c ≠ s.
Proof.
  rewrite <- not_true_iff_false, has_suit_true. split.
  - intros Hno c Hin Hs. apply Hno. eauto.
  - intros Hall (c & Hin & Hs). by apply (Hall c).
Qed.

Lemma has_suit_filter hand (s : Suit) :
  has_suit hand s = truthy (filter (λ c, suit c = s) hand).
Proof.
  induction hand as [|c hand IH]; [done|].
  rewrite filter_cons. simpl. case_decide as Hs.
  - by rewrite bool_decide_eq_true_2.
  - by rewrite bool_decide_eq_false_2.
Qed.

Lemma truthy_true {A} (l : list A) : truthy l = true ↔ l ≠ [].
Proof. by destruct l. Qed.

Lemma truthy_false {A} (l : list A) : truthy l = false ↔ l = [].
Proof. by destruct l. Qed.

Lemma trick_winner_traced_result lead reply trump (tne : bool) :
  (trick_winner_traced lead reply trump tne).2 = trick_winner lead reply trump tne.
Proof.
  unfold trick_winner_traced, trick_winner.
  repeat (case_match; simpl; try done).
Qed.

(** With the talon empty and a trump lead, holding a trump means holding the
    lead suit, so the function returns in its first branch: every trump of
    the hand is legal and the overtrump restriction is never applied. *)
Lemma compute_legal_moves_trump_lead hand lead trump :
  suit lead = trump →
  compute_legal_moves hand (Some lead) trump false
  = if has_suit hand trump then filter (λ c, suit c = trump) hand else hand.
Proof.
  intros <-. unfold compute_legal_moves, trumps.
  destruct (has_suit hand (suit lead)) eqn:Hs; [done|].
  rewrite has_suit_filter in Hs. by rewrite Hs.
Qed.

Lemma legal_moves_subset hand (lead_card : option Card) trump (tne : bool) card :
  card ∈ compute_legal_moves hand lead_card trump tne → card ∈ hand.
Proof.
  unfold compute_legal_moves, trumps, overtrumps.
  repeat case_match; try done; rewrite list_elem_of_filter; tauto.
Qed.

End RuleEngine.

(** C1. The forced-overtrump scenario: trump H, lead (H,Q), hand (H,K),(H,7),
    talon empty.  [overtrumps] selects (H,K) alone, but both versions of the
    legal-move function return from their follow-suit branch with the two
    trumps, the weaker (H,7) included. *)
Theorem forced_overtrump_scenario :
  let hand := [mkCard HEARTS rK; mkCard HEARTS r7] in
  let lead := mkCard HEARTS rQ in
  compute_legal_moves hand (Some lead) HEARTS false = hand
  ∧ GameState.legal_moves hand (Some lead) HEARTS false = hand
  ∧ overtrumps hand HEARTS lead = [mkCard HEARTS rK].
Proof. by vm_compute. Qed.

(** C4. For distinct cards and any trump suit: a trump reply to a non-trump
    lead wins for the follower (1); a non-trump reply to a trump lead leaves
    the trick to the leader (0); with both cards of one suit the trick goes to
    the side whose card comes first in the order A,10,K,Q,J,9,8,7, which is
    what [RANK_STRENGTH] enumerates. *)
Theorem trick_winner_correct (lead reply : Card) (trump : Suit) (tne : bool) :
  lead ≠ reply →
  (∀ r, [rA; r10; rK; rQ; rJ; r9; r8; r7] !! RANK_STRENGTH r = Some r)
  ∧ (suit reply = trump → suit lead ≠ trump →
     trick_winner lead reply trump tne = 1)
  ∧ (suit lead = trump → suit reply ≠ trump →
     trick_winner lead reply trump tne = 0)
  ∧ (suit reply = suit lead →
     (RANK_STRENGTH (rank lead) < RANK_STRENGTH (rank reply)
      ∧ trick_winner lead reply trump tne = 0)
     ∨ (RANK_STRENGTH (rank reply) < RANK_STRENGTH (rank lead)
        ∧ trick_winner lead reply trump tne = 1)).
Proof.
  intros Hne. split; [apply RANK_STRENGTH_enumerate|].
  unfold trick_winner. repeat split.
  - intros Hr Hl. by rewrite bool_decide_eq_true_2, bool_decide_eq_false_2.
  - intros Hl Hr. by rewrite (bool_decide_eq_false_2 _ Hr), bool_decide_eq_true_2.
  - intros Hs.
    assert (RANK_STRENGTH (rank lead) ≠ RANK_STRENGTH (rank reply)) as Hrk.
    { intros Heq%RANK_STRENGTH_inj. apply Hne.
      destruct lead, reply; simpl in *; congruence. }
    rewrite Hs, (bool_decide_eq_true_2 _ eq_refl).
    destruct (bool_decide (suit lead = trump)); simpl;
      case_bool_decide; (left; split; [lia|done]) || (right; split; [lia|done]).
Qed.

Lemma trick_winner_correct_witness :
  trick_winner (mkCard SPADES rA) (mkCard HEARTS r7) HEARTS true = 1.
Proof.
  apply (trick_winner_correct (mkCard SPADES rA) (mkCard HEARTS r7) HEARTS true);
    [discriminate | reflexivity | discriminate].
Defined.

(** C7. A non-empty hand always has a legal move, whatever the lead card (or
    none), the trump suit and the talon flag. *)
Theorem compute_legal_moves_nonempty (hand : list Card) (lead_card : option Card)
    (trump : Suit) (tne : bool) :
  hand ≠ [] → compute_legal_moves hand lead_card trump tne ≠ [].
Proof.
  intros Hhand. unfold compute_legal_moves.
  destruct lead_card as [lead|]; [|done].
  destruct tne; [done|].
  destruct (has_suit hand (suit lead)) eqn:Hs.
  { rewrite has_suit_filter in Hs. by apply truthy_true. }
  destruct (truthy (trumps hand trump)) eqn:Ht; [|done].
  apply truthy_true in Ht.
  case_bool_decide; [|done].
  destruct (truthy (overtrumps hand trump lead)) eqn:Hot; [|done].
  by apply truthy_true.
Qed.

Lemma compute_legal_moves_nonempty_witness :
  compute_legal_moves [mkCard DIAMONDS r9] (Some (mkCard SPADES rA)) HEARTS false ≠ [].
Proof. apply compute_legal_moves_nonempty. discriminate. Defined.

(** C3 (as amended). With the talon empty and the reply taken from the legal
    moves, the last [return 0] of [trick_winner] is reached exactly on a
    forced discard: the follower holds neither the lead suit nor a trump and
    the lead is not a trump.  The trick then goes to the leader. *)
Theorem fallback_iff_forced_discard (hand : list Card) (lead card : Card)
    (trump : Suit) :
  card ∈ compute_legal_moves hand (Some lead) trump false →
  ((trick_winner_traced lead card trump false).1 = br_fallback
   ↔ has_suit hand (suit lead) = false ∧ has_suit hand trump = false
     ∧ suit lead ≠ trump)
  ∧ ((trick_winner_traced lead card trump false).1 = br_fallback →
     trick_winner lead card trump false = 0).
Proof.
  intros Hlegal. split.
  - pose proof (legal_moves_subset _ _ _ _ _ Hlegal) as Hin.
    unfold compute_legal_moves, trumps in Hlegal.
    unfold trick_winner_traced.
    destruct (has_suit hand (suit lead)) eqn:Hls.
    + apply list_elem_of_filter in Hlegal as [Hs _]. rewrite Hs.
      rewrite (bool_decide_eq_true_2 _ eq_refl).
      destruct (bool_decide (suit lead = trump)); simpl; split; try done;
        intros (? & _); done.
    + rewrite has_suit_false in Hls.
      destruct (truthy (filter (λ c, suit c = trump) hand)) eqn:Ht.
      * assert (suit card = trump) as Hct.
        { unfold overtrumps in Hlegal.
          repeat case_match; apply list_elem_of_filter in Hlegal; tauto. }
        assert (suit lead ≠ trump) as Hlt.
        { intros Heq. apply (Hls card Hin). congruence. }
        rewrite (bool_decide_eq_true_2 _ Hct), (bool_decide_eq_false_2 _ Hlt).
        simpl. rewrite <- has_suit_filter in Ht. rewrite Ht.
        split; [done|]. intros (_ & ? & _); done.
      * rewrite <- has_suit_filter in Ht.
        pose proof Ht as Hnt. rewrite has_suit_false in Hnt.
        rewrite (bool_decide_eq_false_2 (suit card = trump)) by auto.
        rewrite (bool_decide_eq_false_2 (suit card = suit lead)) by auto.
        simpl. rewrite andb_true_r.
        case_bool_decide as Hlt; simpl; split; try done.
        intros (_ & _ & ?); done.
  - unfold trick_winner_traced, trick_winner.
    repeat (case_match; simpl; try done).
Qed.

Lemma fallback_iff_forced_discard_witness :
  (trick_winner_traced (mkCard SPADES rA) (mkCard DIAMONDS r9) HEARTS false).1
  = br_fallback.
Proof.
  apply (fallback_iff_forced_discard [mkCard DIAMONDS r9; mkCard CLUBS rA]).
  - vm_compute. apply list_elem_of_here.
  - repeat split; discriminate.
Defined.

(** * Properties of the state machine *)

Lemma apply_announce_board by_ ann_type ann_suit show snapshot g :
  board (apply_announce by_ ann_type ann_suit show snapshot g).2 = board g.
Proof.
  unfold apply_announce. eng_unfold. destruct by_; cbn; eng_cases.
Qed.

Lemma apply_announce_raised by_ ann_type ann_suit show snapshot g :
  raised (apply_announce by_ ann_type ann_suit show snapshot g) →
  (apply_announce by_ ann_type ann_suit show snapshot g).2 = g.
Proof.
  unfold raised, apply_announce. eng_unfold. destruct by_; cbn; eng_cases.
Qed.

Lemma maybe_finish_game_board g :
  board (maybe_finish_game g).2 = board g.
Proof.
  unfold maybe_finish_game. eng_unfold. cbn. eng_cases.
Qed.

Lemma maybe_finish_game_done g : (maybe_finish_game g).1 = Done tt.
Proof.
  unfold maybe_finish_game. eng_unfold. cbn. eng_cases.
Qed.

Lemma all_zones_board g g' : board g = board g' → all_zones g = all_zones g'.
Proof.
  unfold board, all_zones, listed_zones, turnup_zone, lead_zone.
  destruct g, g'; cbn. intros [=]. by subst.
Qed.

Lemma stock_ok_board g g' : board g = board g' → stock_ok g → stock_ok g'.
Proof. unfold board, stock_ok. destruct g, g'; cbn. intros [=]. by subst. Qed.

Lemma game_inv_board g g' : board g = board g' → game_inv g → game_inv g'.
Proof.
  intros Hb [Hc Hs]. split.
  - by rewrite <- (all_zones_board _ _ Hb).
  - by apply (stock_ok_board _ _ Hb).
Qed.

Lemma remove_card_Some hand card hand' :
  remove_card hand card = Some hand' → hand ≡ₚ card :: hand'.
Proof.
  revert hand'. induction hand as [|c hand IH]; intros hand'; simpl; [done|].
  destruct (card_eq c card) eqn:Heq.
  - apply card_eq_iff in Heq as ->. by intros [= ->].
  - destruct (remove_card hand card) as [h|]; simpl; [|done].
    intros [= <-]. rewrite (IH h eq_refl). apply Permutation_swap.
Qed.

Lemma remove_card_None hand card :
  remove_card hand card = None ↔ card ∉ hand.
Proof.
  induction hand as [|c hand IH]; simpl.
  - split; [intros _; apply not_elem_of_nil | done].
  - destruct (card_eq c card) eqn:Heq.
    + apply card_eq_iff in Heq as ->. split; [done|].
      intros []. apply list_elem_of_here.
    + rewrite fmap_None, IH, not_elem_of_cons.
      assert (card ≠ c).
      { intros ->. apply not_true_iff_false in Heq. apply Heq. by apply card_eq_iff. }
      tauto.
Qed.

Lemma new_game_inv game_id deck g :
  deck ≡ₚ new_deck → new_game game_id deck = Some g → game_inv g.
Proof.
  intros Hperm Hnew. unfold new_game in Hnew.
  destruct (deck !! 10) as [trump|] eqn:Htrump; simplify_eq/=.
  assert (length deck = 32) as Hlen by (by rewrite Hperm).
  split.
  - unfold all_zones, listed_zones, turnup_zone, lead_zone. cbn.
    rewrite !app_nil_r. rewrite <- Hperm.
    rewrite <- (take_drop 5 deck) at 4.
    rewrite <- (take_drop 5 (drop 5 deck)) at 2.
    rewrite drop_drop. cbn.
    rewrite (drop_S deck trump 10 Htrump).
    apply Permutation_app_head, Permutation_app_head.
    symmetry. apply Permutation_cons_append.
  - unfold stock_ok. cbn. rewrite length_drop, Hlen. reflexivity.
Qed.

Lemma leader_play_inv by_ card au_sept_flag announce show g :
  game_inv g → game_inv (leader_play by_ card au_sept_flag announce show g).2.
Proof.
  intros Hinv. unfold leader_play, remove_from_hand. eng_unfold. cbn.
  destruct (is_over g); [done|].
  case_bool_decide as Hlead; [done|].
  destruct (_ || _); [done|].
  destruct (_ && _); [done|].
  pose proof (apply_announce_board by_ (get_type announce) (get_suit announce)
                show (hand_of by_ g) g) as Hb.
  destruct (apply_announce _ _ _ _ _ g) as [[[]|msg] g1]; cbn in *;
    [|by apply (game_inv_board g)].
  apply (game_inv_board _ _ (eq_sym Hb)) in Hinv.
  destruct (is_over g1); [done|].
  assert (current_lead g1 = None) as Hlead1.
  { unfold board in Hb. simplify_eq. congruence. }
  destruct (remove_card (hand_of by_ g1) card) as [hand'|] eqn:Hrm; cbn; [|done].
  apply remove_card_Some in Hrm.
  destruct Hinv as [Hc Hs]. split.
  - rewrite <- Hc. unfold all_zones, listed_zones, turnup_zone, lead_zone.
    rewrite Hlead1. destruct by_; cbn in *; rewrite Hrm; cbn; solve_Permutation.
  - unfold stock_ok in *. by destruct by_.
Qed.

Lemma maybe_finish_game_inv g : game_inv g → game_inv (maybe_finish_game g).2.
Proof. apply game_inv_board. symmetry. apply maybe_finish_game_board. Qed.

Local Opaque maybe_finish_game.

(** [resolve_trick] is entered with the reply already taken out of the
    follower's hand and the lead still recorded in [current_lead]: both
    cards go to the winner's pile and the stock is drawn from, winner
    first. *)
Lemma resolve_trick_inv lead_by lead_card follow_by follow_card g :
  current_lead g = Some lead_card →
  follow_card :: all_zones g ≡ₚ new_deck →
  stock_ok g →
  game_inv (resolve_trick lead_by lead_card follow_by follow_card g).2.
Proof.
  intros Hlead Hc Hs.
  unfold resolve_trick, append_to_hand, draw_from_stock. eng_unfold. cbn.
  set (winner := if bool_decide (_ = 0) then lead_by else follow_by).
  clearbody winner.
  unfold all_zones, listed_zones, turnup_zone, lead_zone, stock_ok in *.
  destruct g as [? ? ? tal ph oh ? cl ? tis pt ot ? ? ? ? ? ? ? ? ? ?].
  cbn in *. subst cl.
  destruct winner, tal as [|c1 [|c2 tal]], tis; cbn in *;
    try discriminate; subst;
    apply maybe_finish_game_inv;
    (split;
     [ unfold all_zones, listed_zones, turnup_zone, lead_zone; cbn;
       rewrite ?concat_app; cbn; rewrite <- Hc; solve_Permutation
     | unfold stock_ok; cbn; done ]).
Qed.

Local Transparent maybe_finish_game.
Local Opaque resolve_trick.

Lemma follower_play_inv by_ card announce show g :
  game_inv g → game_inv (follower_play by_ card announce show g).2.
Proof.
  intros Hinv. unfold follower_play, remove_from_hand. eng_unfold. cbn.
  destruct (is_over g); [done|].
  destruct (current_lead g) as [lead_card|] eqn:Hlead; [|done].
  destruct (current_lead_by g) as [lead_by|]; [|done].
  case_bool_decide; [done|].
  destruct (_ && _); [done|].
  pose proof (apply_announce_board by_ (get_type announce) (get_suit announce)
                show (hand_of by_ g) g) as Hb.
  destruct (apply_announce _ _ _ _ _ g) as [[[]|msg] g1]; cbn in *;
    [|by apply (game_inv_board g)].
  apply (game_inv_board _ _ (eq_sym Hb)) in Hinv.
  destruct (is_over g1); [done|].
  assert (current_lead g1 = Some lead_card) as Hlead1.
  { unfold board in Hb. simplify_eq. congruence. }
  destruct (remove_card (hand_of by_ g1) card) as [hand'|] eqn:Hrm; cbn; [|done].
  apply remove_card_Some in Hrm.
  destruct Hinv as [Hc Hs].
  apply resolve_trick_inv.
  - by destruct by_.
  - rewrite <- Hc. unfold all_zones, listed_zones, turnup_zone, lead_zone.
    destruct by_; cbn in *; rewrite Hrm; solve_Permutation.
  - unfold stock_ok in *. by destruct by_.
Qed.

Local Transparent resolve_trick.

Lemma list_find_seven hand trump idx seven :
  list_find (λ c, is_seven_of_trump c trump = true) hand = Some (idx, seven) →
  hand !! idx = Some seven ∧ seven = mkCard trump r7.
Proof.
  intros (Hidx & Hseven & _)%list_find_Some. split; [done|].
  unfold is_seven_of_trump in Hseven.
  apply andb_true_iff in Hseven as [Hs Hr].
  apply bool_decide_eq_true in Hs, Hr. destruct seven; simpl in *; congruence.
Qed.

Lemma exchange7_inv g : game_inv g → game_inv (exchange7 g).2.
Proof.
  intros [Hc Hs]. unfold exchange7, talon_not_empty. eng_unfold. cbn.
  destruct (is_over g); [done|].
  destruct (exchange7_done g); [done|].
  case_bool_decide as Htalon; [|done]. cbn.
  destruct (list_find _ _) as [[idx seven]|] eqn:Hfind; [|done]. cbn.
  apply list_find_seven in Hfind as [Hidx _].
  unfold stock_ok in *.
  destruct (turnup_in_stock g) eqn:Htis.
  2:{ rewrite Hs in Htalon. simpl in Htalon. lia. }
  split.
  - rewrite <- Hc. unfold all_zones, listed_zones, turnup_zone, lead_zone. cbn.
    rewrite Htis. rewrite insert_take_drop by (by eapply lookup_lt_Some).
    rewrite <- (take_drop_middle _ _ _ Hidx) at 3. solve_Permutation.
  - unfold stock_ok. cbn. by rewrite Htis.
Qed.

Lemma reachable_inv g : reachable g → game_inv g.
Proof.
  induction 1 as [game_id deck g Hperm Hnew | g op _ IH].
  - by eapply new_game_inv.
  - destruct op; simpl.
    + by apply leader_play_inv.
    + by apply follower_play_inv.
    + by apply exchange7_inv.
    + by apply maybe_finish_game_inv.
Qed.

Lemma initial_game_new : new_game "g" new_deck = Some initial_game.
Proof. reflexivity. Qed.

Lemma initial_game_reachable : reachable initial_game.
Proof. by apply (reachable_new "g" new_deck). Qed.

Lemma reachable_run ops g : reachable g → reachable (run ops g).
Proof.
  revert g. induction ops as [|op ops IH]; intros g Hg; [done|].
  apply IH. by apply reachable_step.
Qed.

Local Opaque maybe_finish_game.

Lemma resolve_trick_fields lead_by lead_card follow_by follow_card g :
  let r := resolve_trick lead_by lead_card follow_by follow_card g in
  r.1 = Done tt
  ∧ exchange7_done r.2 = exchange7_done g
  ∧ last_trick_winner r.2
    = Some (if bool_decide (trick_winner lead_card follow_card (trump_suit g)
                              (talon_not_empty g) = 0)
            then lead_by else follow_by).
Proof.
  unfold resolve_trick, append_to_hand, draw_from_stock. eng_unfold. cbn.
  set (winner := if bool_decide (_ = 0) then lead_by else follow_by).
  clearbody winner.
  destruct g as [? ? ? tal ph oh ? cl ? tis pt ot ? ? ? ? ? ? ? ? ? ?].
  cbn in *.
  destruct winner, tal as [|c1 [|c2 tal]], tis; cbn;
    try (destruct (bool_decide (0 < _)); cbn);
    (split; [apply maybe_finish_game_done|]);
    match goal with
    | |- context [maybe_finish_game ?g0] =>
        pose proof (maybe_finish_game_board g0) as Hb
    end;
    unfold board in Hb; cbn in Hb; simplify_eq; done.
Qed.

Local Transparent maybe_finish_game.

Local Opaque resolve_trick.

Lemma exchange7_done_mono op g :
  exchange7_done g = true → exchange7_done (exec op g).2 = true.
Proof.
  intros Hdone. destruct op as [by_ card flag announce show
                               | by_ card announce show | |]; simpl.
  - unfold leader_play, remove_from_hand. eng_unfold. cbn.
    destruct (is_over g); [done|].
    case_bool_decide; [done|].
    destruct (_ || _); [done|].
    destruct (_ && _); [done|].
    pose proof (apply_announce_board by_ (get_type announce) (get_suit announce)
                  show (hand_of by_ g) g) as Hb.
    destruct (apply_announce _ _ _ _ _ g) as [[[]|msg] g1]; cbn in *;
      assert (exchange7_done g1 = true) as Hdone1
        by (unfold board in Hb; simplify_eq; congruence);
      [|done].
    destruct (is_over g1); [done|].
    destruct (remove_card _ _); cbn; [|done]. by destruct by_.
  - unfold follower_play, remove_from_hand. eng_unfold. cbn.
    destruct (is_over g); [done|].
    destruct (current_lead g) as [lead_card|]; [|done].
    destruct (current_lead_by g) as [lead_by|]; [|done].
    case_bool_decide; [done|].
    destruct (_ && _); [done|].
    pose proof (apply_announce_board by_ (get_type announce) (get_suit announce)
                  show (hand_of by_ g) g) as Hb.
    destruct (apply_announce _ _ _ _ _ g) as [[[]|msg] g1]; cbn in *;
      assert (exchange7_done g1 = true) as Hdone1
        by (unfold board in Hb; simplify_eq; congruence);
      [|done].
    destruct (is_over g1); [done|].
    destruct (remove_card _ _) as [hand'|]; cbn; [|done].
    destruct (resolve_trick_fields lead_by lead_card by_ card
                (with_hand_of by_ hand' g1)) as (_ & -> & _).
    by destruct by_.
  - unfold exchange7. eng_unfold. cbn. eng_cases.
  - pose proof (maybe_finish_game_board g) as Hb.
    unfold board in Hb. simplify_eq. congruence.
Qed.

Lemma exchange7_done_run ops g :
  exchange7_done g = true → exchange7_done (run ops g) = true.
Proof.
  revert g. induction ops as [|op ops IH]; intros g Hg; [done|].
  apply IH. by apply exchange7_done_mono.
Qed.

Lemma exchange7_raised_iff g :
  raised (exchange7 g)
  ↔ is_over g = true ∨ exchange7_done g = true ∨ talon g = []
    ∨ mkCard (trump_suit g) r7 ∉ player_hand g.
Proof.
  unfold raised, exchange7, talon_not_empty. eng_unfold. cbn.
  destruct (is_over g); cbn; [tauto|].
  destruct (exchange7_done g); cbn; [tauto|].
  case_bool_decide as Htalon; cbn.
  2:{ split; [|done]. intros _. right; right; left.
      destruct (talon g); [done|]. simpl in Htalon. lia. }
  destruct (list_find _ _) as [[idx seven]|] eqn:Hfind; cbn.
  - apply list_find_seven in Hfind as [Hidx ->].
    split; [done|]. intros [?|[?|[Ht|Hno]]]; try done.
    + rewrite Ht in Htalon. simpl in Htalon. lia.
    + apply Hno. by eapply list_elem_of_lookup_2.
  - split; [|done]. intros _. right; right; right.
    apply list_find_None in Hfind. rewrite Forall_forall in Hfind.
    intros Hin. apply (Hfind _ Hin). unfold is_seven_of_trump. simpl.
    by rewrite !bool_decide_eq_true_2.
Qed.

Lemma exchange7_success g :
  ¬ raised (exchange7 g) →
  ∃ idx,
    player_hand g !! idx = Some (mkCard (trump_suit g) r7)
    ∧ (exchange7 g).2
      = with_exchange7_done true
          (with_trump_card (mkCard (trump_suit g) r7)
             (with_player_hand (<[idx := trump_card g]> (player_hand g)) g)).
Proof.
  unfold raised, exchange7, talon_not_empty. eng_unfold. cbn.
  destruct (is_over g); cbn; [tauto|].
  destruct (exchange7_done g); cbn; [tauto|].
  case_bool_decide as Htalon; cbn; [|tauto].
  destruct (list_find _ _) as [[idx seven]|] eqn:Hfind; cbn; [|tauto].
  apply list_find_seven in Hfind as [Hidx ->]. intros _. by exists idx.
Qed.

Lemma exchange7_atomic g : raised (exchange7 g) → (exchange7 g).2 = g.
Proof.
  unfold raised, exchange7. eng_unfold. cbn. eng_cases.
Qed.


(** A failed call is all-or-nothing as long as the acting side holds the
    card: every other check comes before the first assignment. *)
Lemma leader_play_atomic by_ card flag announce show g :
  card ∈ hand_of by_ g →
  raised (leader_play by_ card flag announce show g) →
  (leader_play by_ card flag announce show g).2 = g.
Proof.
  intros Hin. unfold raised, leader_play, remove_from_hand. eng_unfold. cbn.
  destruct (is_over g); [done|].
  case_bool_decide; [done|].
  destruct (_ || _); [done|].
  destruct (_ && _); [done|].
  pose proof (apply_announce_board by_ (get_type announce) (get_suit announce)
                show (hand_of by_ g) g) as Hb.
  pose proof (apply_announce_raised by_ (get_type announce) (get_suit announce)
                show (hand_of by_ g) g) as Hr.
  destruct (apply_announce _ _ _ _ _ g) as [[[]|msg] g1]; cbn in *;
    [|intros _; by apply Hr].
  destruct (is_over g1); [done|].
  assert (hand_of by_ g1 = hand_of by_ g) as ->.
  { unfold board in Hb. destruct by_; simplify_eq; simpl; congruence. }
  destruct (remove_card (hand_of by_ g) card) eqn:Hrm; cbn; [done|].
  by apply remove_card_None in Hrm.
Qed.

Lemma follower_play_atomic by_ card announce show g :
  card ∈ hand_of by_ g →
  raised (follower_play by_ card announce show g) →
  (follower_play by_ card announce show g).2 = g.
Proof.
  intros Hin. unfold raised, follower_play, remove_from_hand. eng_unfold. cbn.
  destruct (is_over g); [done|].
  destruct (current_lead g) as [lead_card|]; [|done].
  destruct (current_lead_by g) as [lead_by|]; [|done].
  case_bool_decide; [done|].
  destruct (_ && _); [done|].
  pose proof (apply_announce_board by_ (get_type announce) (get_suit announce)
                show (hand_of by_ g) g) as Hb.
  pose proof (apply_announce_raised by_ (get_type announce) (get_suit announce)
                show (hand_of by_ g) g) as Hr.
  destruct (apply_announce _ _ _ _ _ g) as [[[]|msg] g1]; cbn in *;
    [|intros _; by apply Hr].
  destruct (is_over g1); [done|].
  assert (hand_of by_ g1 = hand_of by_ g) as ->.
  { unfold board in Hb. destruct by_; simplify_eq; simpl; congruence. }
  destruct (remove_card (hand_of by_ g) card) as [hand'|] eqn:Hrm; cbn.
  - destruct (resolve_trick_fields lead_by lead_card by_ card
                (with_hand_of by_ hand' g1)) as (-> & _). done.
  - by apply remove_card_None in Hrm.
Qed.

(** Once the talon is empty the legality gate of [follower_play] implies
    that the card is held, so there every failure is all-or-nothing. *)
Lemma follower_play_atomic_endgame by_ card announce show g :
  talon g = [] →
  raised (follower_play by_ card announce show g) →
  (follower_play by_ card announce show g).2 = g.
Proof.
  intros Htalon Hr.
  destruct (decide (card ∈ hand_of by_ g)) as [Hin|Hnot];
    [by apply follower_play_atomic|].
  clear Hr. unfold follower_play, talon_not_empty. eng_unfold. cbn.
  destruct (is_over g); [done|].
  destruct (current_lead g) as [lead_card|]; [|done].
  destruct (current_lead_by g) as [lead_by|]; [|done].
  case_bool_decide; [done|].
  rewrite Htalon. cbn.
  destruct (existsb _ _) eqn:Hex; [|done].
  apply existsb_exists in Hex as (c & Hc & Heq).
  apply card_eq_iff in Heq as ->. apply list_elem_of_In in Hc.
  by apply (legal_moves_subset _ (Some lead_card) _ false) in Hc.
Qed.

(** C2. [leader_play] is not all-or-nothing.  From [initial_game] the player
    leads a card that is not in hand together with a valid shown mariage of
    hearts: the call raises "Card not in hand" after [apply_announce] has
    already recorded the announce, so 20 points, the key and the
    last-announce record stay in the game object. *)
Theorem leader_play_failure_keeps_announce :
  (bad_lead initial_game).1 = Raised "Card not in hand"
  ∧ (mkCard SPADES r7 ∉ player_hand initial_game)
  ∧ player_ann_points initial_game = 0
  ∧ player_ann_points (bad_lead initial_game).2 = 20
  ∧ announced_player initial_game = ∅
  ∧ ("mariage:H" ∈ announced_player (bad_lead initial_game).2)
  ∧ last_announce initial_game = None
  ∧ last_announce (bad_lead initial_game).2
    = Some (mkAnnounceEvent player mariage (Some HEARTS))
  ∧ (bad_lead initial_game).2 ≠ initial_game.
Proof.
  repeat split; try by vm_compute.
  apply (bool_decide_unpack _). by vm_compute.
Qed.

Lemma discard_state_reachable : reachable discard_state.
Proof. apply reachable_run, initial_game_reachable. Qed.

(** C3, counterexample.  [discard_state] is reached by calls that all return
    normally; the talon is empty, the player has led the king of hearts and
    the opponent holds four spades with diamonds trump.  Each spade is legal,
    [follower_play] accepts the seven, and [trick_winner] answers from its
    last [return 0]. *)
Lemma fallback_reached_by_legal_discard :
  reachable discard_state
  ∧ all_done discard_trace initial_game = true
  ∧ talon discard_state = []
  ∧ turnup_in_stock discard_state = false
  ∧ trump_suit discard_state = DIAMONDS
  ∧ current_lead discard_state = Some (mkCard HEARTS rK)
  ∧ current_lead_by discard_state = Some player
  ∧ opponent_hand discard_state
    = [mkCard SPADES r10; mkCard SPADES rQ; mkCard SPADES r9; mkCard SPADES r7]
  ∧ compute_legal_moves (opponent_hand discard_state) (Some (mkCard HEARTS rK))
      DIAMONDS (talon_not_empty discard_state)
    = opponent_hand discard_state
  ∧ (follower_play opponent (mkCard SPADES r7) None false discard_state).1 = Done tt
  ∧ (trick_winner_traced (mkCard HEARTS rK) (mkCard SPADES r7) DIAMONDS
       (talon_not_empty discard_state)).1 = br_fallback.
Proof.
  split; [apply discard_state_reachable|].
  repeat split; by vm_compute.
Qed.

(** C5, counterexample.  After the first lead the led card is in
    [current_lead] only: the six listed zones hold 31 cards. *)
Lemma lead_card_outside_listed_zones :
  reachable first_lead_state
  ∧ current_lead first_lead_state = Some (mkCard HEARTS rA)
  ∧ length (listed_zones first_lead_state) = 31
  ∧ (mkCard HEARTS rA ∉ listed_zones first_lead_state)
  ∧ ¬ (listed_zones first_lead_state ≡ₚ new_deck).
Proof.
  split; [apply reachable_run, initial_game_reachable|].
  assert (length (listed_zones first_lead_state) = 31) as Hlen by (by vm_compute).
  repeat split; try by vm_compute.
  - apply (bool_decide_unpack _). by vm_compute.
  - intros Hperm. apply Permutation_length in Hperm.
    rewrite Hlen in Hperm. by vm_compute in Hperm.
Qed.

(** C5 (as amended).  In every reachable state the two hands, the talon, the
    turnup still in stock, the two trick piles and the lead card of the trick
    in progress together are the 32-card deck, each card once; between tricks
    the six listed zones alone are the deck. *)
Theorem card_conservation g :
  reachable g →
  all_zones g ≡ₚ new_deck
  ∧ length new_deck = 32 ∧ NoDup new_deck
  ∧ (current_lead g = None → listed_zones g ≡ₚ new_deck).
Proof.
  intros [Hc _]%reachable_inv.
  split; [done|]. split; [reflexivity|]. split.
  - apply (bool_decide_unpack _). by vm_compute.
  - intros Hlead. rewrite <- Hc. unfold all_zones, lead_zone.
    by rewrite Hlead, app_nil_r.
Qed.

Lemma card_conservation_witness :
  reachable initial_game ∧ all_zones initial_game ≡ₚ new_deck.
Proof.
  split; [apply initial_game_reachable|].
  apply (proj1 (card_conservation initial_game initial_game_reachable)).
Defined.

(** C10.  In every reachable state an empty talon implies that the turnup is
    no longer in the stock, so the engine's test [talon_not_empty] is false
    exactly when the stock is exhausted; the reason is that the talon holds
    an odd number of cards as long as the turnup is there. *)
Theorem empty_talon_stock_exhausted g :
  reachable g →
  (talon g = [] → turnup_in_stock g = false)
  ∧ (talon_not_empty g = false ↔ stock_exhausted g)
  ∧ (turnup_in_stock g = true → Nat.odd (length (talon g)) = true).
Proof.
  intros [_ Hs]%reachable_inv. unfold stock_ok in Hs.
  unfold stock_exhausted, talon_not_empty.
  destruct (turnup_in_stock g), (talon g) as [|c tal]; simplify_eq/=;
    repeat split; try done; try (intros []; done).
Qed.

Lemma new_game_talon game_id deck g :
  deck ≡ₚ new_deck → new_game game_id deck = Some g →
  length (talon g) = 21 ∧ turnup_in_stock g = true
  ∧ length (player_hand g) = 5 ∧ length (opponent_hand g) = 5.
Proof.
  intros Hperm Hnew. unfold new_game in Hnew.
  destruct (deck !! 10) as [trump|]; simplify_eq/=.
  assert (length deck = 32) as Hlen by (by rewrite Hperm).
  rewrite !length_take, !length_drop, Hlen. done.
Qed.


Lemma reachable_stock g :
  reachable g → talon g = [] ↔ stock_exhausted g.
Proof.
  intros [_ Hs]%reachable_inv. unfold stock_ok in Hs. unfold stock_exhausted.
  destruct (turnup_in_stock g), (talon g); simplify_eq/=; split; try done.
  all: by intros [].
Qed.

(** C6.  In a reachable state [exchange7] raises exactly when the game is
    over, the exchange was already made, the stock is exhausted, or the
    player's hand lacks the seven of trump.  When it returns, the turnup was
    still reserved, the seven's place in the hand now holds the former
    [trump_card], the seven is the new [trump_card], the flag is set, and
    every later [exchange7] raises, whatever happens in between. *)
Theorem exchange7_spec g :
  reachable g →
  (raised (exchange7 g)
   ↔ is_over g = true ∨ exchange7_done g = true ∨ stock_exhausted g
     ∨ mkCard (trump_suit g) r7 ∉ player_hand g)
  ∧ (¬ raised (exchange7 g) →
     turnup_in_stock g = true
     ∧ (∃ idx,
          player_hand g !! idx = Some (mkCard (trump_suit g) r7)
          ∧ (exchange7 g).2
            = with_exchange7_done true
                (with_trump_card (mkCard (trump_suit g) r7)
                   (with_player_hand (<[idx := trump_card g]> (player_hand g)) g)))
     ∧ ∀ ops, raised (exchange7 (run ops (exchange7 g).2))).
Proof.
  intros Hreach. split.
  - rewrite exchange7_raised_iff. by rewrite (reachable_stock g Hreach).
  - intros Hok. split; [|split].
    + destruct (turnup_in_stock g) eqn:Htis; [done|]. exfalso. apply Hok.
      apply exchange7_raised_iff. right; right; left.
      apply reachable_inv in Hreach as [_ Hs]. unfold stock_ok in Hs.
      by rewrite Htis in Hs.
    + by apply exchange7_success.
    + intros ops. apply exchange7_raised_iff. right; left.
      apply exchange7_done_run.
      destruct (exchange7_success g Hok) as (idx & _ & ->). done.
Qed.

Lemma exchange7_spec_witness :
  reachable seven_in_hand_state
  ∧ ¬ raised (exchange7 seven_in_hand_state)
  ∧ ∀ ops, raised (exchange7 (run ops (exchange7 seven_in_hand_state).2)).
Proof.
  assert (reachable seven_in_hand_state) as Hreach
    by apply reachable_run, initial_game_reachable.
  assert (¬ raised (exchange7 seven_in_hand_state)) as Hok by (by vm_compute).
  split; [done|]. split; [done|].
  apply (exchange7_spec seven_in_hand_state Hreach), Hok.
Defined.


Lemma has_chouine_holds hand s :
  (∀ r, r ∈ [rA; r10; rK; rQ; rJ] → mkCard s r ∈ hand) →
  has_chouine hand s = true.
Proof.
  intros Hall. unfold has_chouine, issubset.
  apply forallb_forall. intros r Hr%list_elem_of_In.
  apply bool_decide_eq_true. unfold ranks_in.
  apply list_elem_of_fmap. exists (mkCard s r). split; [done|].
  apply list_elem_of_filter. auto.
Qed.

Lemma apply_announce_chouine by_ s snapshot g :
  has_chouine snapshot s = true →
  announce_key chouine (Some s) ∉ announced_of by_ g →
  apply_announce by_ chouine (Some s) true snapshot g
  = (Done tt,
     with_winner (Some (won by_))
       (with_is_over true
          (with_last_announce (Some (mkAnnounceEvent by_ chouine (Some s)))
             (with_announced_of by_
                ({[announce_key chouine (Some s)]} ∪ announced_of by_ g) g)))).
Proof.
  intros Hhas Hkey.
  assert (validate_announce snapshot chouine (Some s) = true) as Hvalid
    by exact Hhas.
  unfold apply_announce. rewrite Hvalid.
  set (key := announce_key chouine (Some s)) in *. clearbody key.
  eng_unfold. cbn.
  rewrite (bool_decide_eq_false_2 (chouine = none)) by done.
  rewrite (bool_decide_eq_false_2 _ Hkey).
  by rewrite (bool_decide_eq_true_2 (chouine = chouine)).
Qed.

(** C9.  A shown chouine whose key the side has not declared, checked on a
    snapshot holding A,10,K,Q,J of the suit, returns normally, ends the game
    with that side as winner and adds no announce points; hands, talon and
    piles are untouched.  [leader_play] and [follower_play], once their
    guards pass, return that very state without playing the card. *)
Theorem chouine_wins_immediately g by_ s snapshot :
  (∀ r, r ∈ [rA; r10; rK; rQ; rJ] → mkCard s r ∈ snapshot) →
  announce_key chouine (Some s) ∉ announced_of by_ g →
  let r := apply_announce by_ chouine (Some s) true snapshot g in
  r.1 = Done tt
  ∧ is_over r.2 = true
  ∧ winner r.2 = Some (won by_)
  ∧ player_ann_points r.2 = player_ann_points g
  ∧ opponent_ann_points r.2 = opponent_ann_points g
  ∧ announce_points chouine (Some s) (trump_suit g) = 0
  ∧ board r.2 = board g
  ∧ (∀ card flag,
       snapshot = hand_of by_ g → is_over g = false → current_lead g = None →
       leader g = leader_of by_ →
       (au_sept_required g = true → flag = true) →
       leader_play by_ card flag (chouine_of s) true g = r)
  ∧ (∀ card lead_card lead_by,
       snapshot = hand_of by_ g → is_over g = false →
       current_lead g = Some lead_card → current_lead_by g = Some lead_by →
       by_ ≠ lead_by →
       (talon g = [] →
        card ∈ compute_legal_moves (hand_of by_ g) (Some lead_card)
                 (trump_suit g) false) →
       follower_play by_ card (chouine_of s) true g = r).
Proof.
  intros Hhas%has_chouine_holds Hkey. cbn zeta.
  rewrite (apply_announce_chouine _ _ _ _ Hhas Hkey).
  split; [done|]. split; [by destruct by_|]. split; [by destruct by_|].
  split; [by destruct by_|]. split; [by destruct by_|]. split; [done|].
  split; [by destruct by_, g|]. split.
  - intros card flag -> Hover Hlead Hldr Hflag.
    unfold leader_play. eng_unfold. cbn.
    rewrite Hover. cbn. rewrite Hlead.
    rewrite (bool_decide_eq_false_2 (None ≠ None)) by (by intros []).
    cbn. rewrite Hldr.
    assert (bool_decide (leader_of by_ = 0) && bool_decide (by_ ≠ player)
            || bool_decide (leader_of by_ = 1) && bool_decide (by_ ≠ opponent)
            = false) as -> by (by destruct by_).
    assert (au_sept_required g && negb flag = false) as ->.
    { destruct (au_sept_required g); [|done]. by rewrite Hflag. }
    rewrite (apply_announce_chouine _ _ _ _ Hhas Hkey). by destruct by_.
  - intros card lead_card lead_by -> Hover Hlead Hlead_by Hne Hlegal.
    unfold follower_play. eng_unfold. cbn.
    rewrite Hover. cbn. rewrite Hlead, Hlead_by. cbn.
    rewrite (bool_decide_eq_false_2 _ Hne).
    assert (negb (talon_not_empty g)
            && negb (existsb (λ c, card_eq c card)
                       (compute_legal_moves (hand_of by_ g) (Some lead_card)
                          (trump_suit g) false)) = false) as Hgate.
    { unfold talon_not_empty. destruct (talon g) eqn:Ht; [|done]. cbn.
      apply negb_false_iff, existsb_exists. exists card.
      split; [apply list_elem_of_In; auto | by apply card_eq_iff]. }
    cbn in Hgate. rewrite Hgate.
    rewrite (apply_announce_chouine _ _ _ _ Hhas Hkey). by destruct by_.
Qed.

Lemma chouine_wins_immediately_witness :
  let r := apply_announce player chouine (Some HEARTS) true chouine_hand initial_game in
  is_over r.2 = true ∧ winner r.2 = Some (won player)
  ∧ leader_play player (mkCard HEARTS rA) false (chouine_of HEARTS) true initial_game = r.
Proof.
  assert (∀ r, r ∈ [rA; r10; rK; rQ; rJ] → mkCard HEARTS r ∈ chouine_hand) as Hhand.
  { intros r Hr. apply (bool_decide_unpack _).
    repeat (apply elem_of_cons in Hr as [->|Hr]; [by vm_compute|]).
    by apply elem_of_nil in Hr. }
  assert (announce_key chouine (Some HEARTS) ∉ announced_of player initial_game)
    as Hkey by apply not_elem_of_empty.
  destruct (chouine_wins_immediately initial_game player HEARTS chouine_hand
              Hhand Hkey) as (_ & Hover & Hwin & _ & _ & _ & _ & Hlead & _).
  cbn zeta. split; [exact Hover|]. split; [exact Hwin|].
  apply Hlead; by vm_compute.
Defined.

Lemma empty_talon_stock_exhausted_witness :
  reachable discard_state ∧ talon discard_state = []
  ∧ turnup_in_stock discard_state = false.
Proof.
  split; [apply discard_state_reachable|]. split; [by vm_compute|].
  apply (proj1 (empty_talon_stock_exhausted discard_state discard_state_reachable)).
  by vm_compute.
Defined.

(** * Further properties *)

Local Transparent resolve_trick.

(** X1. [remove_card] fails exactly when the card is absent; otherwise it
    removes the first occurrence and keeps the order of the other cards. *)
Theorem remove_card_first_occurrence (hand : list Card) (card : Card) :
  (remove_card hand card = None ↔ card ∉ hand)
  ∧ (∀ hand', remove_card hand card = Some hand' →
       ∃ before after,
         hand = before ++ card :: after ∧ hand' = before ++ after
         ∧ card ∉ before).
Proof.
  split; [apply remove_card_None|].
  induction hand as [|c hand IH]; intros hand'; simpl; [done|].
  destruct (card_eq c card) eqn:Heq.
  - apply card_eq_iff in Heq as ->. intros [= ->].
    exists [], hand'. repeat split; [done..|apply not_elem_of_nil].
  - destruct (remove_card hand card) as [h|]; simpl; [|done].
    intros [= <-]. destruct (IH h eq_refl) as (before & after & -> & -> & Hnot).
    exists (c :: before), after. repeat split; [done..|].
    apply not_elem_of_cons. split; [|done].
    intros ->. apply not_true_iff_false in Heq. apply Heq. by apply card_eq_iff.
Qed.

(** X2. Two announces have the same key only if they are the same announce,
    except that the key of a quinte ignores the suit. *)
Theorem announce_key_inj (t1 t2 : AnnounceType) (s1 s2 : option Suit) :
  announce_key t1 s1 = announce_key t2 s2 →
  t1 = t2 ∧ (t1 = quinte ∨ s1 = s2).
Proof.
  destruct t1, t2, s1 as [[]|], s2 as [[]|]; vm_compute;
    intros Heq; try discriminate Heq; split; auto.
Qed.

Lemma announce_key_inj_witness :
  mariage = mariage ∧ (mariage = quinte ∨ Some HEARTS = Some HEARTS).
Proof. apply announce_key_inj. reflexivity. Defined.

(** X13. The two copies of the rule helpers agree. *)
Theorem game_state_helpers_agree (hand : list Card) (lead reply : Card)
    (lead_card : option Card) (trump : Suit) (tne : bool) :
  GameState.trick_winner lead reply trump tne = trick_winner lead reply trump tne
  ∧ GameState.legal_moves hand lead_card trump tne
    = compute_legal_moves hand lead_card trump tne.
Proof.
  split.
  - unfold GameState.trick_winner, trick_winner, GameState.compare_same_suit.
    repeat (case_bool_decide; simpl; try done).
  - unfold GameState.legal_moves, compute_legal_moves, GameState.has_trump, trumps.
    destruct lead_card as [l|]; [|done]. destruct tne; [done|].
    destruct (has_suit hand (suit l)) eqn:Hls; [done|].
    rewrite (has_suit_filter hand trump).
    destruct (truthy (filter _ hand)) eqn:Ht; [|done].
    assert (suit l ≠ trump) as Hne.
    { intros Heq. rewrite Heq, has_suit_filter, Ht in Hls. done. }
    by rewrite (bool_decide_eq_false_2 _ Hne).
Qed.

(** X14. With the talon empty, a legal reply comes from the hand, follows
    the lead suit when the hand can, and otherwise is a trump when the hand
    holds one. *)
Theorem legal_moves_obligations (hand : list Card) (lead : Card) (trump : Suit)
    (card : Card) :
  card ∈ compute_legal_moves hand (Some lead) trump false →
  card ∈ hand
  ∧ (has_suit hand (suit lead) = true → suit card = suit lead)
  ∧ (has_suit hand (suit lead) = false → has_suit hand trump = true →
     suit card = trump).
Proof.
  intros Hlegal. split; [by eapply legal_moves_subset|].
  unfold compute_legal_moves, trumps, overtrumps in Hlegal. split.
  - intros Hls. rewrite Hls in Hlegal.
    by apply list_elem_of_filter in Hlegal as [? _].
  - intros Hls Htr. rewrite Hls in Hlegal.
    rewrite has_suit_filter in Htr. rewrite Htr in Hlegal.
    repeat case_match; apply list_elem_of_filter in Hlegal; tauto.
Qed.

Lemma legal_moves_obligations_witness :
  suit (mkCard HEARTS r7) = HEARTS.
Proof.
  apply (legal_moves_obligations [mkCard HEARTS r7; mkCard CLUBS rA]
           (mkCard SPADES rA) HEARTS (mkCard HEARTS r7)).
  - apply (bool_decide_unpack _). by vm_compute.
  - reflexivity.
  - reflexivity.
Defined.

Lemma maybe_finish_game_is_over g :
  is_over (maybe_finish_game g).2 = is_over g || hands_exhausted g.
Proof.
  unfold maybe_finish_game, hands_exhausted. eng_unfold.
  destruct g as [? ? ? ? ph oh ? cl ? ? ? ? ? ? ? ? ? ? over ? ? ?].
  destruct over, cl, ph, oh; cbn;
    repeat (case_bool_decide; cbn in *; try done; try lia); try done;
    naive_solver.
Qed.

Lemma maybe_finish_game_ledger g : ledger (maybe_finish_game g).2 = ledger g.
Proof.
  unfold maybe_finish_game. eng_unfold. cbn. eng_cases.
Qed.

Local Opaque maybe_finish_game.

Lemma resolve_trick_effect lead_by lead_card follow_by follow_card g :
  stock_ok g →
  let w := trick_winner_side lead_by lead_card follow_by follow_card g in
  let r := (resolve_trick lead_by lead_card follow_by follow_card g).2 in
  ledger r = ledger g
  ∧ trump_card r = trump_card g
  ∧ current_lead r = None ∧ current_lead_by r = None
  ∧ leader r = leader_of w ∧ last_trick_winner r = Some w
  ∧ tricks_of w r = tricks_of w g ++ [[lead_card; follow_card]]
  ∧ tricks_of (other w) r = tricks_of (other w) g
  ∧ is_over r
    = is_over g
      || bool_decide (player_hand r = []) && bool_decide (opponent_hand r = [])
  ∧ match talon g with
    | [] =>
        hand_of w r = hand_of w g ∧ hand_of (other w) r = hand_of (other w) g
        ∧ talon r = [] ∧ turnup_in_stock r = false
    | [c] =>
        hand_of w r = hand_of w g ++ [c]
        ∧ hand_of (other w) r = hand_of (other w) g ++ [trump_card g]
        ∧ talon r = [] ∧ turnup_in_stock r = false
    | c1 :: c2 :: rest =>
        hand_of w r = hand_of w g ++ [c1]
        ∧ hand_of (other w) r = hand_of (other w) g ++ [c2]
        ∧ talon r = rest ∧ turnup_in_stock r = true
    end.
Proof.
  intros Hs. unfold trick_winner_side.
  unfold resolve_trick, append_to_hand, draw_from_stock. eng_unfold. cbn.
  set (winner := if bool_decide (_ = 0) then lead_by else follow_by).
  clearbody winner.
  unfold stock_ok in Hs.
  destruct g as [? ? ? tal ph oh ? cl ? tis pt ot ? ? ? ? ? ? ? ? ? ?].
  cbn in *.
  destruct winner, tal as [|c1 [|c2 tal]], tis; cbn in *;
    try discriminate;
    try (rewrite (bool_decide_eq_false_2 (0 < 0)) by lia; cbn);
    try (rewrite (bool_decide_eq_true_2 (0 < S _)) by lia; cbn);
    match goal with
    | |- context [maybe_finish_game ?g0] =>
        pose proof (maybe_finish_game_board g0) as Hb;
        pose proof (maybe_finish_game_ledger g0) as Hl;
        pose proof (maybe_finish_game_is_over g0) as Ho;
        destruct (maybe_finish_game g0) as [o r]
    end;
    unfold board, ledger, hands_exhausted in *; cbn in *;
    simplify_eq; repeat split; try done;
    repeat match goal with
           | H : player_hand _ = _ |- _ => rewrite H; clear H
           | H : opponent_hand _ = _ |- _ => rewrite H; clear H
           end; done.
Qed.

Local Transparent maybe_finish_game.

Lemma turn_ok_board g g' : board g = board g' → turn_ok g → turn_ok g'.
Proof.
  unfold board, turn_ok. destruct g, g'; cbn. intros [=]. by subst.
Qed.

Lemma stock_ok_with_hand by_ hand g : stock_ok g → stock_ok (with_hand_of by_ hand g).
Proof. unfold stock_ok. by destruct by_. Qed.

Lemma remove_card_length hand card hand' :
  remove_card hand card = Some hand' → length hand = S (length hand').
Proof. intros Hrm%remove_card_Some. by rewrite Hrm. Qed.

Lemma leader_guard_false (ldr : nat) (by_ : By) :
  ldr ≤ 1 →
  bool_decide (ldr = 0) && bool_decide (by_ ≠ player)
  || bool_decide (ldr = 1) && bool_decide (by_ ≠ opponent) = false
  ↔ ldr = leader_of by_.
Proof.
  intros Hle. destruct by_; simpl;
    repeat (case_bool_decide; simpl); split; try done; try lia; naive_solver.
Qed.

Local Opaque resolve_trick.

Lemma leader_play_turn by_ card flag announce show g :
  turn_ok g → turn_ok (leader_play by_ card flag announce show g).2.
Proof.
  intros Hturn. unfold leader_play, remove_from_hand. eng_unfold. cbn.
  destruct (is_over g); [done|].
  case_bool_decide as Hlead; [done|].
  destruct (bool_decide (leader g = 0) && bool_decide (by_ ≠ player)
            || bool_decide (leader g = 1) && bool_decide (by_ ≠ opponent))
    eqn:Hguard; [done|].
  destruct (au_sept_required g && negb flag); [done|].
  pose proof (apply_announce_board by_ (get_type announce) (get_suit announce)
                show (hand_of by_ g) g) as Hb.
  destruct (apply_announce _ _ _ _ _ g) as [[[]|msg] g1]; cbn [fst snd] in *.
  2:{ by apply (turn_ok_board g). }
  apply (turn_ok_board _ _ (eq_sym Hb)) in Hturn.
  destruct (is_over g1); [done|].
  assert (current_lead g1 = None ∧ leader g1 = leader g) as [Hlead1 Hldr].
  { unfold board in Hb. simplify_eq. split; congruence. }
  destruct (remove_card (hand_of by_ g1) card) as [hand'|] eqn:Hrm; cbn; [|done].
  apply remove_card_length in Hrm.
  destruct Hturn as [Hle Hsz]. rewrite Hlead1 in Hsz.
  apply leader_guard_false in Hguard; [|lia].
  destruct (current_lead_by g1); [done|].
  unfold turn_ok. destruct by_; cbn in *; (split; [lia|]); split; lia.
Qed.

Lemma follower_play_turn by_ card announce show g :
  stock_ok g → turn_ok g → turn_ok (follower_play by_ card announce show g).2.
Proof.
  intros Hstock Hturn. unfold follower_play, remove_from_hand. eng_unfold. cbn.
  destruct (is_over g); [done|].
  destruct (current_lead g) as [lead_card|] eqn:Hlead; [|done].
  destruct (current_lead_by g) as [lead_by|] eqn:Hlead_by; [|done].
  case_bool_decide as Hby; [done|].
  destruct (_ && _); [done|].
  pose proof (apply_announce_board by_ (get_type announce) (get_suit announce)
                show (hand_of by_ g) g) as Hb.
  destruct (apply_announce _ _ _ _ _ g) as [[[]|msg] g1]; cbn [fst snd] in *;
    [|by apply (turn_ok_board g)].
  apply (turn_ok_board _ _ (eq_sym Hb)) in Hturn.
  apply (stock_ok_board _ _ (eq_sym Hb)) in Hstock.
  destruct (is_over g1); [done|].
  assert (current_lead g1 = Some lead_card
          ∧ current_lead_by g1 = Some lead_by) as [Hlead1 Hlead_by1].
  { unfold board in Hb. simplify_eq. split; congruence. }
  destruct (remove_card (hand_of by_ g1) card) as [hand'|] eqn:Hrm; cbn; [|done].
  apply remove_card_length in Hrm.
  destruct Hturn as [Hle Hsz]. rewrite Hlead1, Hlead_by1 in Hsz.
  destruct Hsz as [Hsz Hldr].
  pose proof (resolve_trick_effect lead_by lead_card by_ card
                (with_hand_of by_ hand' g1) (stock_ok_with_hand _ _ _ Hstock))
    as (_ & _ & Hcl & Hclb & Hleader & _ & _ & _ & _ & Hdraw).
  cbn zeta in *.
  set (w := trick_winner_side _ _ _ _ _) in *. clearbody w.
  set (r := (resolve_trick _ _ _ _ _).2) in *. clearbody r.
  unfold turn_ok. rewrite Hcl, Hclb, Hleader.
  split; [destruct w; simpl; lia|].
  assert (talon (with_hand_of by_ hand' g1) = talon g1) as Ht by (by destruct by_).
  rewrite Ht in Hdraw.
  destruct (talon g1) as [|c1 [|c2 rest]]; destruct Hdraw as (Hw & Ho & _);
    destruct w, by_, lead_by; cbn in *; try done;
    rewrite Hw, Ho, ?length_app; cbn; lia.
Qed.

Local Transparent resolve_trick.

Lemma exchange7_turn g : turn_ok g → turn_ok (exchange7 g).2.
Proof.
  intros Hturn. unfold exchange7. eng_unfold. cbn.
  destruct (is_over g); [done|].
  destruct (exchange7_done g); [done|].
  destruct (negb _); [done|]. cbn.
  destruct (list_find _ _) as [[idx seven]|]; [|done]. cbn.
  unfold turn_ok in *. cbn.
  destruct (current_lead g), (current_lead_by g) as [[]|]; cbn in *;
    by rewrite ?length_insert.
Qed.

Lemma new_game_turn game_id deck g :
  deck ≡ₚ new_deck → new_game game_id deck = Some g → turn_ok g.
Proof.
  intros Hperm Hnew. unfold new_game in Hnew.
  destruct (deck !! 10) as [trump|]; simplify_eq/=.
  assert (length deck = 32) as Hlen by (by rewrite Hperm).
  unfold turn_ok. cbn. split; [lia|].
  rewrite !length_take, !length_drop, Hlen. done.
Qed.

Lemma reachable_turn g : reachable g → turn_ok g.
Proof.
  induction 1 as [game_id deck g Hperm Hnew | g op Hreach IH].
  - by eapply new_game_turn.
  - destruct op; simpl.
    + by apply leader_play_turn.
    + apply follower_play_turn; [|done]. by apply reachable_inv.
    + by apply exchange7_turn.
    + apply (turn_ok_board g); [|done]. symmetry. apply maybe_finish_game_board.
Qed.

(** X6. In every reachable state the hand-size check of [invariant_warning]
    passes: no warning is ever reported. *)
Theorem invariant_warning_silent g : reachable g → invariant_warning g = None.
Proof.
  intros [_ Hsz]%reachable_turn. unfold invariant_warning.
  destruct (current_lead g), (current_lead_by g) as [[]|]; cbn in *; try done;
    rewrite bool_decide_eq_false_2; try done; lia.
Qed.

Lemma invariant_warning_silent_witness : invariant_warning discard_state = None.
Proof. apply invariant_warning_silent, discard_state_reachable. Defined.

(** X7. The talon of a reachable state never holds exactly two cards, so the
    "au sept" announce is never required and the flag passed to
    [leader_play] is irrelevant. *)
Theorem au_sept_never_required g :
  reachable g →
  au_sept_required g = false
  ∧ ∀ by_ card flag announce show,
      leader_play by_ card flag announce show g
      = leader_play by_ card true announce show g.
Proof.
  intros [_ Hs]%reachable_inv.
  assert (au_sept_required g = false) as Hau.
  { unfold au_sept_required, stock_ok in *.
    case_bool_decide as Hlen; [|done]. exfalso.
    destruct (turnup_in_stock g).
    - by rewrite Hlen in Hs.
    - by rewrite Hs in Hlen. }
  split; [done|]. intros. unfold leader_play. eng_unfold. cbn.
  destruct (is_over g); [done|].
  destruct (bool_decide (current_lead g ≠ None)); [done|].
  destruct (bool_decide (leader g = 0) && bool_decide (by_ ≠ player)
            || bool_decide (leader g = 1) && bool_decide (by_ ≠ opponent));
    [done|].
  by rewrite Hau.
Qed.

Lemma au_sept_never_required_witness : au_sept_required initial_game = false.
Proof. apply au_sept_never_required, initial_game_reachable. Defined.

(** X3. Once the game is over no operation changes the game object, and the
    three playing operations raise. *)
Theorem game_over_is_final op g :
  is_over g = true →
  (exec op g).2 = g ∧ (op ≠ op_maybe_finish → raised (exec op g)).
Proof.
  intros Hover. destruct op; simpl;
    unfold raised, leader_play, follower_play, exchange7, maybe_finish_game;
    eng_unfold; cbn; rewrite Hover; done.
Qed.

Lemma game_over_is_final_witness :
  let g := (apply_announce player chouine (Some HEARTS) true chouine_hand
              initial_game).2 in
  (exec op_exchange7 g).2 = g.
Proof.
  apply (game_over_is_final op_exchange7). reflexivity.
Defined.

Lemma existsb_seven hand trump :
  existsb (λ c, is_seven_of_trump c trump) hand = true
  ↔ mkCard trump r7 ∈ hand.
Proof.
  rewrite existsb_exists. split.
  - intros (c & Hin%list_elem_of_In & Hc). unfold is_seven_of_trump in Hc.
    apply andb_true_iff in Hc as [Hs%bool_decide_eq_true Hr%bool_decide_eq_true].
    destruct c; simpl in *. by subst.
  - intros Hin. exists (mkCard trump r7). split; [by apply list_elem_of_In|].
    unfold is_seven_of_trump. simpl. by rewrite !bool_decide_eq_true_2.
Qed.

(** X9. While the game is not over, the [can_exchange7] flag of the public
    state is set exactly when [exchange7] would return normally. *)
Theorem can_exchange7_flag g :
  is_over g = false →
  ps_can_exchange7 (public_state g) = true ↔ ¬ raised (exchange7 g).
Proof.
  intros Hover. rewrite exchange7_raised_iff, Hover. cbn.
  rewrite !andb_true_iff, negb_true_iff, existsb_seven.
  unfold talon_not_empty. rewrite bool_decide_eq_true.
  split.
  - intros [[Hd Ht] Hin] [?|[Hd'|[Ht'|Hn]]]; [done|congruence| |done].
    rewrite Ht' in Ht. simpl in Ht. lia.
  - intros Hno. split; [split|].
    + destruct (exchange7_done g); [exfalso; apply Hno; auto|done].
    + destruct (talon g); [exfalso; apply Hno; auto|simpl; lia].
    + destruct (decide (mkCard (trump_suit g) r7 ∈ player_hand g));
        [done|exfalso; apply Hno; auto].
Qed.

Lemma can_exchange7_flag_witness :
  ps_can_exchange7 (public_state seven_in_hand_state) = true.
Proof.
  apply (can_exchange7_flag seven_in_hand_state); by vm_compute.
Defined.

(** X16. Any shuffle of the deck is dealt: five cards to each side, the
    eleventh card as turnup fixing the trump suit, the other 21 as talon,
    in deck order; the player leads and nothing has been played. *)
Theorem new_game_deal game_id deck :
  deck ≡ₚ new_deck →
  ∃ g, new_game game_id deck = Some g
       ∧ player_hand g ++ opponent_hand g ++ trump_card g :: talon g = deck
       ∧ length (player_hand g) = 5 ∧ length (opponent_hand g) = 5
       ∧ length (talon g) = 21
       ∧ trump_suit g = suit (trump_card g)
       ∧ turnup_in_stock g = true ∧ leader g = 0
       ∧ current_lead g = None ∧ is_over g = false
       ∧ scores_so_far g
         = mkRunningScores (mkRunningSide 0 0 0) (mkRunningSide 0 0 0) true.
Proof.
  intros Hperm.
  assert (length deck = 32) as Hlen by (by rewrite Hperm).
  destruct (lookup_lt_is_Some_2 deck 10) as [trump Htrump]; [lia|].
  unfold new_game. rewrite Htrump. cbn. eexists. split; [done|]. cbn.
  rewrite !length_take, !length_drop, Hlen.
  repeat split; try done.
  rewrite <- (drop_S deck trump 10 Htrump).
  replace (drop 10 deck) with (drop 5 (drop 5 deck)) by (by rewrite drop_drop).
  rewrite (take_drop 5 (drop 5 deck)). apply take_drop.
Qed.

Lemma new_game_deal_witness :
  ∃ g, new_game "g" new_deck = Some g ∧ length (talon g) = 21.
Proof.
  destruct (new_game_deal "g" new_deck) as (g & Hg & _ & _ & _ & Ht & _);
    [done|]. by exists g.
Defined.

(** X5. What an announce does: a call that raises leaves the game untouched;
    a call that returns for a real announce was shown, valid for the
    snapshot and new for the side, records the key for that side only,
    credits that side with the points of the table (second column for the
    trump suit, nothing for a chouine) and ends the game exactly for a
    chouine. *)
Theorem apply_announce_effect by_ t s show snapshot g :
  let r := apply_announce by_ t s show snapshot g in
  (raised r → r.2 = g)
  ∧ (r.1 = Done tt → t ≠ none →
     show = true ∧ validate_announce snapshot t s = true
     ∧ (announce_key t s ∉ announced_of by_ g)
     ∧ announced_of by_ r.2 = {[announce_key t s]} ∪ announced_of by_ g
     ∧ announced_of (other by_) r.2 = announced_of (other by_) g
     ∧ ann_points_of by_ r.2
       = ann_points_of by_ g + announce_points t s (trump_suit g)
     ∧ ann_points_of (other by_) r.2 = ann_points_of (other by_) g
     ∧ last_announce r.2 = Some (mkAnnounceEvent by_ t s)
     ∧ is_over r.2 = is_over g || bool_decide (t = chouine)
     ∧ board r.2 = board g).
Proof.
  cbn zeta. split; [apply apply_announce_raised|].
  intros Hdone Hne. revert Hdone.
  pose proof (apply_announce_board by_ t s show snapshot g) as Hb.
  revert Hb. unfold apply_announce.
  set (key := announce_key t s). clearbody key.
  set (pts := announce_points t s).
  eng_unfold. cbn.
  rewrite (bool_decide_eq_false_2 _ Hne).
  destruct show; cbn; [|done].
  destruct (validate_announce snapshot t s); cbn; [|done].
  case_bool_decide as Hkey; cbn; [done|].
  case_bool_decide as Hch; cbn.
  - subst t. intros Hb _.
    assert (pts (trump_suit g) = 0) as -> by done. clear pts.
    destruct by_, g; cbn; rewrite ?Nat.add_0_r, ?orb_true_r; done.
  - intros Hb _. clearbody pts.
    destruct by_, g; cbn; rewrite ?orb_false_r; done.
Qed.

Lemma apply_announce_announced by_ b t s show snapshot g :
  announced_of b g ⊆ announced_of b (apply_announce by_ t s show snapshot g).2.
Proof.
  unfold apply_announce.
  set (key := announce_key t s). clearbody key.
  eng_unfold. cbn.
  case_bool_decide; [done|].
  destruct show; cbn; [|done].
  destruct (validate_announce snapshot t s); cbn; [|done].
  case_bool_decide; cbn; [done|].
  case_bool_decide; cbn; destruct by_, b; cbn;
    try done; apply union_subseteq_r.
Qed.

Lemma ledger_announced b g g' :
  ledger g = ledger g' → announced_of b g = announced_of b g'.
Proof. unfold ledger. destruct b, g, g'; cbn; intros [=]; by subst. Qed.

Local Opaque resolve_trick.

Lemma announced_mono op b g :
  stock_ok g → announced_of b g ⊆ announced_of b (exec op g).2.
Proof.
  intros Hstock.
  destruct op as [by_ card flag announce show
                 | by_ card announce show | |]; simpl.
  - unfold leader_play, remove_from_hand. eng_unfold. cbn.
    destruct (is_over g); [done|].
    case_bool_decide; [done|].
    destruct (bool_decide (leader g = 0) && bool_decide (by_ ≠ player)
              || bool_decide (leader g = 1) && bool_decide (by_ ≠ opponent));
      [done|].
    destruct (au_sept_required g && negb flag); [done|].
    pose proof (apply_announce_announced by_ b (get_type announce)
                  (get_suit announce) show (hand_of by_ g) g) as Hsub.
    destruct (apply_announce _ _ _ _ _ g) as [[[]|msg] g1]; cbn [fst snd] in *;
      [|done].
    destruct (is_over g1); [done|].
    destruct (remove_card _ _) as [hand'|]; cbn; [|done].
    by destruct by_, b.
  - unfold follower_play, remove_from_hand. eng_unfold. cbn.
    destruct (is_over g); [done|].
    destruct (current_lead g) as [lead_card|]; [|done].
    destruct (current_lead_by g) as [lead_by|]; [|done].
    case_bool_decide; [done|].
    destruct (_ && _); [done|].
    pose proof (apply_announce_announced by_ b (get_type announce)
                  (get_suit announce) show (hand_of by_ g) g) as Hsub.
    pose proof (apply_announce_board by_ (get_type announce) (get_suit announce)
                  show (hand_of by_ g) g) as Hb.
    destruct (apply_announce _ _ _ _ _ g) as [[[]|msg] g1]; cbn [fst snd] in *;
      [|done].
    apply (stock_ok_board _ _ (eq_sym Hb)) in Hstock.
    destruct (is_over g1); [done|].
    destruct (remove_card _ _) as [hand'|]; cbn; [|done].
    pose proof (resolve_trick_effect lead_by lead_card by_ card
                  (with_hand_of by_ hand' g1) (stock_ok_with_hand _ _ _ Hstock))
      as (Hl & _).
    cbn zeta in Hl. rewrite (ledger_announced b _ _ Hl).
    by destruct by_, b.
  - unfold exchange7. eng_unfold. cbn. by eng_cases.
  - by rewrite (ledger_announced b _ _ (maybe_finish_game_ledger g)).
Qed.

Lemma announced_run ops b g :
  reachable g → announced_of b g ⊆ announced_of b (run ops g).
Proof.
  revert g. induction ops as [|op ops IH]; intros g Hreach; [done|].
  etrans; [apply (announced_mono op)|apply IH].
  - by apply reachable_inv.
  - by apply reachable_step.
Qed.

Lemma apply_announce_repeat by_ t s show snapshot g :
  t ≠ none → announce_key t s ∈ announced_of by_ g →
  raised (apply_announce by_ t s show snapshot g).
Proof.
  intros Hne Hin. unfold raised, apply_announce.
  set (key := announce_key t s) in *. clearbody key.
  eng_unfold. cbn. rewrite (bool_decide_eq_false_2 _ Hne).
  destruct show; cbn; [|done].
  destruct (validate_announce snapshot t s); cbn; [|done].
  by rewrite (bool_decide_eq_true_2 _ Hin).
Qed.

(** X4. A key declared by a side stays declared for the rest of the game:
    whatever is played in between, a lead or a follow of that side carrying
    the same announce again raises and leaves the game untouched. *)
Theorem announce_only_once g by_ t s :
  reachable g → t ≠ none → announce_key t s ∈ announced_of by_ g →
  ∀ ops card flag show,
    let g' := run ops g in
    raised (leader_play by_ card flag (announce_of t s) show g')
    ∧ (leader_play by_ card flag (announce_of t s) show g').2 = g'
    ∧ raised (follower_play by_ card (announce_of t s) show g')
    ∧ (follower_play by_ card (announce_of t s) show g').2 = g'.
Proof.
  intros Hreach Hne Hin ops card flag show. cbn zeta.
  assert (announce_key t s ∈ announced_of by_ (run ops g)) as Hin'.
  { by apply (announced_run ops by_ g Hreach). }
  set (g' := run ops g) in *. clearbody g'.
  assert (∀ snapshot,
            ∃ msg, apply_announce by_ t s show snapshot g' = (Raised msg, g'))
    as Hann.
  { intros snapshot.
    pose proof (apply_announce_repeat by_ t s show snapshot g' Hne Hin') as Hr.
    pose proof (apply_announce_raised by_ t s show snapshot g' Hr) as Hs.
    unfold raised in Hr.
    destruct (apply_announce by_ t s show snapshot g') as [[|msg] g2];
      simpl in *; [done|]. subst. by exists msg. }
  unfold raised, leader_play, follower_play. eng_unfold. cbn.
  change (get_type (announce_of t s)) with t.
  change (get_suit (announce_of t s)) with s.
  split; [|split; [|split]].
  - destruct (is_over g'); [done|].
    case_bool_decide; [done|].
    destruct (bool_decide (leader g' = 0) && bool_decide (by_ ≠ player)
              || bool_decide (leader g' = 1) && bool_decide (by_ ≠ opponent));
      [done|].
    destruct (au_sept_required g' && negb flag); [done|].
    destruct (Hann (hand_of by_ g')) as [msg ->]. done.
  - destruct (is_over g'); [done|].
    case_bool_decide; [done|].
    destruct (bool_decide (leader g' = 0) && bool_decide (by_ ≠ player)
              || bool_decide (leader g' = 1) && bool_decide (by_ ≠ opponent));
      [done|].
    destruct (au_sept_required g' && negb flag); [done|].
    destruct (Hann (hand_of by_ g')) as [msg ->]. done.
  - destruct (is_over g'); [done|].
    destruct (current_lead g') as [lead_card|]; [|done].
    destruct (current_lead_by g') as [lead_by|]; [|done].
    case_bool_decide; [done|].
    destruct (_ && _); [done|].
    destruct (Hann (hand_of by_ g')) as [msg ->]. done.
  - destruct (is_over g'); [done|].
    destruct (current_lead g') as [lead_card|]; [|done].
    destruct (current_lead_by g') as [lead_by|]; [|done].
    case_bool_decide; [done|].
    destruct (_ && _); [done|].
    destruct (Hann (hand_of by_ g')) as [msg ->]. done.
Qed.

Lemma announce_only_once_witness :
  raised (leader_play player (mkCard HEARTS r10) false
            (announce_of mariage (Some HEARTS)) true
            (run [op_follow opponent (mkCard HEARTS r9) None false]
               mariage_lead_state)).
Proof.
  apply (announce_only_once mariage_lead_state player mariage (Some HEARTS)).
  - apply reachable_run, initial_game_reachable.
  - discriminate.
  - apply (bool_decide_unpack _). by vm_compute.
Defined.

Lemma compute_cards_points_concat tricks :
  compute_cards_points tricks = points (concat tricks).
Proof.
  unfold compute_cards_points, points.
  induction tricks as [|trick tricks IH]; [done|].
  cbn. rewrite !sum_list_with_app, <- IH. f_equal.
  induction trick as [|c trick IHt]; [done|]. cbn. by rewrite <- IHt.
Qed.

(** X8. The deck is worth 120 card points and in every reachable state these
    are split between the two trick piles and the cards not yet won; once
    both hands, the stock and the table are empty the two piles hold all
    120. *)
Theorem card_points_total g :
  reachable g →
  points new_deck = 120
  ∧ compute_cards_points (player_tricks g)
    + compute_cards_points (opponent_tricks g)
    + points (player_hand g ++ opponent_hand g ++ talon g ++ turnup_zone g
              ++ lead_zone g)
    = 120
  ∧ (player_hand g = [] → opponent_hand g = [] → talon g = [] →
     current_lead g = None →
     compute_cards_points (player_tricks g)
     + compute_cards_points (opponent_tricks g) = 120).
Proof.
  intros Hreach. pose proof (reachable_inv g Hreach) as [Hc Hs].
  assert (points new_deck = 120) as Hdeck by (by vm_compute).
  assert (points (all_zones g) = points new_deck) as Hall.
  { unfold points. by rewrite Hc. }
  rewrite Hdeck in Hall.
  unfold all_zones, listed_zones, points in Hall.
  rewrite !sum_list_with_app in Hall.
  fold (points (concat (player_tricks g))) in Hall.
  fold (points (concat (opponent_tricks g))) in Hall.
  rewrite <- !compute_cards_points_concat in Hall.
  split; [done|]. split.
  - unfold points. rewrite !sum_list_with_app. lia.
  - intros Hph Hoh Ht Hlead.
    unfold stock_ok in Hs. unfold turnup_zone, lead_zone in Hall.
    rewrite Hph, Hoh, Ht, Hlead in Hall.
    destruct (turnup_in_stock g); [by rewrite Ht in Hs|].
    cbn in Hall. lia.
Qed.

Lemma card_points_total_witness :
  compute_cards_points (player_tricks discard_state)
  + compute_cards_points (opponent_tricks discard_state)
  + points (player_hand discard_state ++ opponent_hand discard_state
            ++ talon discard_state ++ turnup_zone discard_state
            ++ lead_zone discard_state) = 120.
Proof.
  exact (proj1 (proj2 (card_points_total discard_state discard_state_reachable))).
Defined.

Lemma apply_announce_none by_ s show snapshot g :
  apply_announce by_ none s show snapshot g = (Done tt, g).
Proof.
  unfold apply_announce. by rewrite (bool_decide_eq_true_2 (none = none)).
Qed.

Lemma remove_card_is_Some hand card :
  card ∈ hand ↔ ∃ hand', remove_card hand card = Some hand'.
Proof.
  destruct (remove_card hand card) as [hand'|] eqn:Hrm.
  - split; [eauto|]. intros _. apply remove_card_Some in Hrm.
    rewrite Hrm. apply list_elem_of_here.
  - apply remove_card_None in Hrm. split; [done|]. by intros [? ?].
Qed.

(** X17. A lead without announce, in a reachable state, returns normally
    exactly when the game is not over, no trick is open, the caller is the
    leader and holds the card; it then moves the card from the hand to
    [current_lead] and changes nothing else.  A call that raises changes
    nothing. *)
Theorem leader_play_without_announce g by_ card flag show :
  reachable g →
  let r := leader_play by_ card flag None show g in
  (r.1 = Done tt
   ↔ is_over g = false ∧ current_lead g = None ∧ leader g = leader_of by_
     ∧ card ∈ hand_of by_ g)
  ∧ (r.1 = Done tt →
     ∃ hand', remove_card (hand_of by_ g) card = Some hand'
       ∧ r.2 = with_current_lead_by (Some by_)
                 (with_current_lead (Some card) (with_hand_of by_ hand' g)))
  ∧ (r.1 ≠ Done tt → r.2 = g).
Proof.
  intros Hreach. cbn zeta.
  pose proof (reachable_turn g Hreach) as [Hle _].
  pose proof (reachable_inv g Hreach) as [_ Hs].
  assert (au_sept_required g = false) as Hau.
  { unfold au_sept_required, stock_ok in *.
    case_bool_decide as Hlen; [|done]. exfalso.
    destruct (turnup_in_stock g); [by rewrite Hlen in Hs|by rewrite Hs in Hlen]. }
  unfold leader_play, remove_from_hand. eng_unfold. cbn.
  destruct (is_over g) eqn:Hover; cbn; [naive_solver|].
  case_bool_decide as Hlead; cbn; [naive_solver|].
  destruct (bool_decide (leader g = 0) && bool_decide (by_ ≠ player)
            || bool_decide (leader g = 1) && bool_decide (by_ ≠ opponent))
    eqn:Hguard; cbn.
  { split; [|done]. split; [done|]. intros (_ & _ & Hldr & _).
    apply leader_guard_false in Hldr; [congruence|done]. }
  apply leader_guard_false in Hguard; [|done].
  rewrite Hau. cbn. rewrite apply_announce_none. cbn. rewrite Hover. cbn.
  destruct (remove_card (hand_of by_ g) card) as [hand'|] eqn:Hrm; cbn.
  - split; [|split; [eauto|done]]. split; [|done]. intros _.
    repeat split; try done. apply remove_card_is_Some. eauto.
  - apply remove_card_None in Hrm. split; [|done]. split; [done|].
    intros (_ & _ & _ & Hin). done.
Qed.

Lemma leader_play_without_announce_witness :
  (leader_play player (mkCard HEARTS rA) false None false initial_game).1 = Done tt.
Proof.
  apply (leader_play_without_announce initial_game player (mkCard HEARTS rA)
           false false initial_game_reachable).
  repeat split. apply (bool_decide_unpack _). by vm_compute.
Defined.

Local Opaque compute_legal_moves.

(** X18. A follow without announce, in a reachable state, returns normally
    exactly when the game is not over, the other side has led, the caller
    holds the card and, once the talon is empty, the card is a legal reply.
    A call that raises changes nothing. *)
Theorem follower_play_without_announce g by_ card show :
  reachable g →
  let r := follower_play by_ card None show g in
  (r.1 = Done tt
   ↔ is_over g = false
     ∧ ∃ lead_card,
         current_lead g = Some lead_card
         ∧ current_lead_by g = Some (other by_)
         ∧ card ∈ hand_of by_ g
         ∧ (talon g = [] →
            card ∈ compute_legal_moves (hand_of by_ g) (Some lead_card)
                     (trump_suit g) false))
  ∧ (r.1 ≠ Done tt → r.2 = g).
Proof.
  intros Hreach. cbn zeta.
  pose proof (reachable_turn g Hreach) as [_ Hturn].
  unfold follower_play, remove_from_hand, talon_not_empty. eng_unfold. cbn.
  destruct (is_over g) eqn:Hover; cbn; [naive_solver|].
  destruct (current_lead g) as [lead_card|] eqn:Hlead; cbn; [|naive_solver].
  destruct (current_lead_by g) as [lead_by|] eqn:Hlead_by; cbn; [|done].
  case_bool_decide as Hby; cbn.
  { split; [|done]. split; [done|]. intros (_ & lc & _ & Hother & _).
    subst by_. by destruct lead_by. }
  assert (lead_by = other by_) as -> by (by destruct by_, lead_by).
  destruct (negb (bool_decide (0 < length (talon g)))
            && negb (existsb (λ c, card_eq c card)
                       (compute_legal_moves (hand_of by_ g) (Some lead_card)
                          (trump_suit g) false))) eqn:Hgate; cbn.
  { split; [|done]. split; [done|]. intros (_ & lc & [= <-] & _ & _ & Hlegal).
    apply andb_true_iff in Hgate as [Ht Hex].
    apply negb_true_iff, bool_decide_eq_false in Ht.
    destruct (talon g); [|simpl in Ht; lia].
    apply negb_true_iff, not_true_iff_false in Hex. exfalso. apply Hex.
    apply existsb_exists. exists card.
    split; [apply list_elem_of_In; auto|by apply card_eq_iff]. }
  rewrite apply_announce_none. cbn. rewrite Hover. cbn.
  destruct (remove_card (hand_of by_ g) card) as [hand'|] eqn:Hrm; cbn.
  - destruct (resolve_trick_fields (other by_) lead_card by_ card
                (with_hand_of by_ hand' g)) as (-> & _).
    split; [|done]. split; [|done]. intros _. split; [done|].
    exists lead_card. repeat split; try done.
    + apply remove_card_is_Some. eauto.
    + intros Ht. rewrite Ht in Hgate. cbn in Hgate.
      apply negb_false_iff, existsb_exists in Hgate as (c & Hc & Heq).
      apply card_eq_iff in Heq as ->. by apply list_elem_of_In.
  - apply remove_card_None in Hrm. split; [|done]. split; [done|].
    intros (_ & lc & _ & _ & Hin & _). done.
Qed.

Local Transparent compute_legal_moves.

Lemma follower_play_without_announce_witness :
  (follower_play opponent (mkCard SPADES r7) None false discard_state).1 = Done tt.
Proof.
  apply (follower_play_without_announce discard_state opponent (mkCard SPADES r7)
           false discard_state_reachable).
  split; [by vm_compute|]. exists (mkCard HEARTS rK).
  split; [by vm_compute|]. split; [by vm_compute|].
  split; [|intros _]; apply (bool_decide_unpack _); by vm_compute.
Defined.

(** X15. What a successful follow without announce does in a reachable
    state: the two cards go to the pile of the side [trick_winner] names,
    which becomes leader and is recorded as winner of the last trick; the
    winner draws the top of the talon and the loser the next card, which is
    the turnup when the talon held a single card; with an empty talon
    nobody draws.  The game is over afterwards exactly when both hands are
    empty. *)
Theorem trick_resolution g by_ card show :
  reachable g →
  let r := (follower_play by_ card None show g).2 in
  (follower_play by_ card None show g).1 = Done tt →
  ∃ lead_card hand',
    current_lead g = Some lead_card
    ∧ remove_card (hand_of by_ g) card = Some hand'
    ∧ let w := trick_winner_side (other by_) lead_card by_ card g in
      let before := hand_before_draw by_ hand' g in
      tricks_of w r = tricks_of w g ++ [[lead_card; card]]
      ∧ tricks_of (other w) r = tricks_of (other w) g
      ∧ leader r = leader_of w ∧ last_trick_winner r = Some w
      ∧ current_lead r = None ∧ current_lead_by r = None
      ∧ (is_over r = true ↔ player_hand r = [] ∧ opponent_hand r = [])
      ∧ match talon g with
        | [] =>
            hand_of w r = before w ∧ hand_of (other w) r = before (other w)
            ∧ talon r = [] ∧ turnup_in_stock r = false
        | [c] =>
            hand_of w r = before w ++ [c]
            ∧ hand_of (other w) r = before (other w) ++ [trump_card g]
            ∧ talon r = [] ∧ turnup_in_stock r = false
        | c1 :: c2 :: rest =>
            hand_of w r = before w ++ [c1]
            ∧ hand_of (other w) r = before (other w) ++ [c2]
            ∧ talon r = rest ∧ turnup_in_stock r = true
        end.
Proof.
  intros Hreach. cbn zeta.
  pose proof (reachable_inv g Hreach) as [_ Hstock].
  pose proof (reachable_turn g Hreach) as [_ Hturn].
  unfold follower_play, remove_from_hand. eng_unfold. cbn.
  destruct (is_over g) eqn:Hover; cbn; [done|].
  destruct (current_lead g) as [lead_card|] eqn:Hlead; cbn; [|done].
  destruct (current_lead_by g) as [lead_by|] eqn:Hlead_by; cbn; [|done].
  case_bool_decide as Hby; cbn; [done|].
  assert (lead_by = other by_) as -> by (by destruct by_, lead_by).
  destruct (_ && _); cbn; [done|].
  rewrite apply_announce_none. cbn. rewrite Hover. cbn.
  destruct (remove_card (hand_of by_ g) card) as [hand'|] eqn:Hrm; cbn; [|done].
  intros _. exists lead_card, hand'. split; [done|]. split; [done|].
  pose proof (resolve_trick_effect (other by_) lead_card by_ card
                (with_hand_of by_ hand' g) (stock_ok_with_hand _ _ _ Hstock))
    as (_ & _ & Hcl & Hclb & Hleader & Hltw & Htw & Hto & Hend & Hdraw).
  cbn zeta in *.
  assert (trick_winner_side (other by_) lead_card by_ card
            (with_hand_of by_ hand' g)
          = trick_winner_side (other by_) lead_card by_ card g) as Hw
    by (by destruct by_).
  rewrite Hw in *. clear Hw.
  set (w := trick_winner_side _ _ _ _ g) in *. clearbody w.
  set (r := (resolve_trick _ _ _ _ _).2) in *. clearbody r.
  assert (is_over (with_hand_of by_ hand' g) = false) as Hover'
    by (by destruct by_).
  rewrite Hover' in Hend. cbn in Hend.
  split; [by destruct w, by_|]. split; [by destruct w, by_|].
  split; [done|]. split; [done|]. split; [done|]. split; [done|]. split.
  { rewrite Hend, andb_true_iff, !bool_decide_eq_true. done. }
  assert (talon (with_hand_of by_ hand' g) = talon g) as Ht by (by destruct by_).
  assert (trump_card (with_hand_of by_ hand' g) = trump_card g) as Htc
    by (by destruct by_).
  rewrite Ht, Htc in Hdraw. unfold hand_before_draw.
  destruct (talon g) as [|c1 [|c2 rest]];
    destruct Hdraw as (Hhw & Hho & Htal & Htis);
    rewrite Hhw, Hho;
    (split; [|split; [|done]]);
    destruct w, by_; simpl; repeat case_bool_decide; done.
Qed.

Lemma trick_resolution_witness :
  ∃ lead_card hand',
    current_lead discard_state = Some lead_card
    ∧ remove_card (hand_of opponent discard_state) (mkCard SPADES r7) = Some hand'.
Proof.
  destruct (trick_resolution discard_state opponent (mkCard SPADES r7) false
              discard_state_reachable) as (lead_card & hand' & Hl & Hr & _).
  - by vm_compute.
  - exists lead_card, hand'. split; assumption.
Defined.

Lemma tuple_lt_irrefl a : tuple_lt a a = false.
Proof.
  induction a as [|x a IH]; [done|]. simpl.
  by rewrite !(bool_decide_eq_false_2 (x < x)) by lia.
Qed.

Lemma tuple_lt_trans a b c :
  tuple_lt a b = true → tuple_lt b c = true → tuple_lt a c = true.
Proof.
  revert b c. induction a as [|x a IH]; intros [|y b] [|z c]; simpl; try done.
  repeat case_bool_decide; try done; try lia. apply IH.
Qed.

Lemma tuple_lt_total a b :
  tuple_lt a b = false → tuple_lt b a = false → a = b.
Proof.
  revert b. induction a as [|x a IH]; intros [|y b]; simpl; try done.
  repeat case_bool_decide; try done. intros Hab Hba.
  f_equal; [lia|by apply IH].
Qed.

Lemma tuple_lt_negtrans a b c :
  tuple_lt a c = true → tuple_lt a b = false → tuple_lt b c = true.
Proof.
  intros Hac Hab. destruct (tuple_lt b a) eqn:Hba.
  - by eapply tuple_lt_trans.
  - by rewrite (tuple_lt_total a b) in Hac.
Qed.

Section py_min.
Context {A : Type} (key : A → list nat).

Lemma foldl_min_spec (rest : list A) (best : A) :
  let m := foldl (λ best c, if tuple_lt (key c) (key best) then c else best)
             best rest in
  (m = best ∨ m ∈ rest)
  ∧ tuple_lt (key best) (key m) = false
  ∧ ∀ y, y ∈ rest → tuple_lt (key y) (key m) = false.
Proof.
  revert best. induction rest as [|c rest IH]; intros best; simpl.
  { split; [by left|]. split; [apply tuple_lt_irrefl|].
    intros y Hy. by apply elem_of_nil in Hy. }
  destruct (tuple_lt (key c) (key best)) eqn:Hc.
  - destruct (IH c) as (Hm & Hcm & Hrest). split; [|split].
    + destruct Hm as [->|Hm]; right; [apply list_elem_of_here|by apply list_elem_of_further].
    + set (m := foldl _ c rest) in *.
      destruct (tuple_lt (key best) (key m)) eqn:Hbm; [|done].
      by rewrite (tuple_lt_trans _ _ _ Hc Hbm) in Hcm.
    + intros y Hy. apply elem_of_cons in Hy as [->|Hy];
        [exact Hcm|by apply Hrest].
  - destruct (IH best) as (Hm & Hbm & Hrest). split; [|split].
    + destruct Hm as [->|Hm]; [by left|right; by apply list_elem_of_further].
    + done.
    + intros y Hy. apply elem_of_cons in Hy as [->|Hy]; [|by apply Hrest].
      set (m := foldl _ best rest) in *.
      destruct (tuple_lt (key c) (key m)) eqn:Hym; [|done].
      by rewrite (tuple_lt_negtrans _ _ _ Hym Hc) in Hbm.
Qed.

Lemma py_min_Some (l : list A) :
  l ≠ [] →
  ∃ m, py_min key l = Some m ∧ m ∈ l
       ∧ ∀ y, y ∈ l → tuple_lt (key y) (key m) = false.
Proof.
  destruct l as [|x rest]; [done|]. intros _. simpl.
  destruct (foldl_min_spec rest x) as (Hm & Hx & Hrest).
  eexists. split; [done|]. split.
  - destruct Hm as [->|Hm]; [apply list_elem_of_here|by apply list_elem_of_further].
  - intros y Hy. apply elem_of_cons in Hy as [->|Hy];
      [exact Hx|by apply Hrest].
Qed.

End py_min.

Lemma legal_moves_nonempty hand lead_card trump tne :
  hand ≠ [] → compute_legal_moves hand lead_card trump tne ≠ [].
Proof.
  intros Hhand. unfold compute_legal_moves.
  destruct lead_card as [lead|]; [|done]. destruct tne; [done|].
  destruct (has_suit hand (suit lead)) eqn:Hs.
  { rewrite has_suit_filter in Hs. by apply truthy_true. }
  destruct (truthy (trumps hand trump)) eqn:Ht; [|done].
  apply truthy_true in Ht. case_bool_decide; [|done].
  destruct (truthy (overtrumps hand trump lead)) eqn:Hot; [|done].
  by apply truthy_true.
Qed.

Lemma win_key_le c d :
  tuple_lt (win_key d) (win_key c) = false →
  CARD_POINTS (rank c) ≤ CARD_POINTS (rank d)
  ∧ (CARD_POINTS (rank c) = CARD_POINTS (rank d) →
     RANK_STRENGTH (rank c) ≤ RANK_STRENGTH (rank d)).
Proof.
  unfold win_key. simpl. repeat case_bool_decide; try done; intros _; lia.
Qed.

Lemma dump_key_brisque trump c d :
  tuple_lt (dump_key trump d) (dump_key trump c) = false →
  is_brisque d = false → is_brisque c = false.
Proof.
  unfold dump_key. simpl. by destruct (is_brisque d), (is_brisque c).
Qed.

Lemma ai_choose_follow_card_legal lead g :
  opponent_hand g ≠ [] →
  let legal := compute_legal_moves (opponent_hand g) (Some lead) (trump_suit g)
                 (talon_not_empty g) in
  let wins d := trick_winner lead d (trump_suit g) (talon_not_empty g) = 1 in
  ∃ c, ai_choose_follow_card lead g = (Done c, g) ∧ c ∈ legal
       ∧ (∀ d, d ∈ legal → wins d →
            wins c ∧ tuple_lt (win_key d) (win_key c) = false)
       ∧ ((∀ d, d ∈ legal → ¬ wins d) →
          ∀ d, d ∈ legal →
            tuple_lt (dump_key (trump_suit g) d) (dump_key (trump_suit g) c)
            = false).
Proof.
  intros Hhand. cbn zeta.
  unfold ai_choose_follow_card, min_or_raise. eng_unfold.
  cbn -[compute_legal_moves truthy].
  assert (truthy (opponent_hand g) = true) as -> by (by apply truthy_true).
  cbn -[compute_legal_moves truthy].
  set (legal := compute_legal_moves _ _ _ _).
  assert (legal ≠ []) as Hlegal by (by apply legal_moves_nonempty).
  set (winning := filter _ legal).
  destruct (truthy winning) eqn:Hw.
  - apply truthy_true in Hw.
    destruct (py_min_Some win_key winning Hw) as (m & -> & Hm & Hmin).
    exists m. split; [done|].
    apply list_elem_of_filter in Hm as [Hmw Hml].
    split; [done|]. split.
    + intros d Hd Hdw. split; [done|]. apply Hmin.
      by apply list_elem_of_filter.
    + intros Hnone. by destruct (Hnone m Hml).
  - apply truthy_false in Hw.
    destruct (py_min_Some (dump_key (trump_suit g)) legal Hlegal)
      as (m & -> & Hm & Hmin).
    exists m. split; [done|]. split; [done|]. split; [|auto].
    intros d Hd Hdw. exfalso.
    assert (d ∈ winning) as Hin by (by apply list_elem_of_filter).
    rewrite Hw in Hin. by apply elem_of_nil in Hin.
Qed.

(** X10. The follow chosen by the opponent policy: with an empty hand the
    function raises; otherwise it returns a legal card of the hand without
    touching the game.  If some legal card wins the trick the choice wins
    and no winning legal card has fewer card points (nor, at equal points,
    an earlier place in the strength order); if none wins, the choice is a
    brisque only when every legal card is one. *)
Theorem ai_follow_choice lead g :
  let legal := compute_legal_moves (opponent_hand g) (Some lead) (trump_suit g)
                 (talon_not_empty g) in
  let wins d := trick_winner lead d (trump_suit g) (talon_not_empty g) = 1 in
  (opponent_hand g = [] →
   ai_choose_follow_card lead g = (Raised "opponent has no cards", g))
  ∧ (opponent_hand g ≠ [] →
     ∃ c, ai_choose_follow_card lead g = (Done c, g)
          ∧ c ∈ legal ∧ c ∈ opponent_hand g
          ∧ (∀ d, d ∈ legal → wins d →
               wins c
               ∧ CARD_POINTS (rank c) ≤ CARD_POINTS (rank d)
               ∧ (CARD_POINTS (rank c) = CARD_POINTS (rank d) →
                  RANK_STRENGTH (rank c) ≤ RANK_STRENGTH (rank d)))
          ∧ ((∀ d, d ∈ legal → ¬ wins d) →
             ∀ d, d ∈ legal → is_brisque d = false → is_brisque c = false)).
Proof.
  cbn zeta. split.
  - intros Hhand. unfold ai_choose_follow_card. eng_unfold. cbn.
    by rewrite Hhand.
  - intros Hhand.
    destruct (ai_choose_follow_card_legal lead g Hhand)
      as (c & Hc & Hlegal & Hwin & Hdump).
    exists c. split; [done|]. split; [done|].
    split; [by eapply legal_moves_subset|]. split.
    + intros d Hd Hdw. destruct (Hwin d Hd Hdw) as [Hcw Hkey].
      split; [done|]. by apply win_key_le.
    + intros Hnone d Hd Hb.
      eapply dump_key_brisque; [by apply Hdump|done].
Qed.

Lemma insert_by_points_perm x l : insert_by_points x l ≡ₚ x :: l.
Proof.
  induction l as [|y l IH]; [done|]. simpl. case_bool_decide; [|done].
  by rewrite IH, Permutation_swap.
Qed.

Lemma sort_by_points_perm l : sort_by_points l ≡ₚ l.
Proof.
  induction l as [|x l IH]; [done|]. simpl.
  by rewrite insert_by_points_perm, IH.
Qed.

Lemma insert_by_points_sorted x l :
  StronglySorted (λ a b, b.2 ≤ a.2) l →
  StronglySorted (λ a b, b.2 ≤ a.2) (insert_by_points x l).
Proof.
  induction 1 as [|y l Hsorted IH Hall]; simpl.
  { repeat constructor. }
  case_bool_decide as Hlt.
  - constructor; [done|].
    rewrite insert_by_points_perm. constructor; [lia|done].
  - constructor; [by constructor|].
    constructor; [lia|].
    eapply Forall_impl; [done|]. simpl. intros z Hz. lia.
Qed.

Lemma sort_by_points_sorted l :
  StronglySorted (λ a b, b.2 ≤ a.2) (sort_by_points l).
Proof.
  induction l as [|x l IH]; [constructor|]. simpl.
  by apply insert_by_points_sorted.
Qed.

Lemma possibles_sound trump hand t s p :
  (t, s, p) ∈ possibles trump hand →
  p = announce_points t s trump ∧ validate_announce hand t s = true
  ∧ t ≠ none ∧ t ≠ chouine.
Proof.
  unfold possibles. rewrite elem_of_app. intros [Hin|Hin].
  - apply list_elem_of_bind in Hin as (x & Hin & _).
    rewrite !elem_of_app in Hin.
    destruct Hin as [Hin|[Hin|Hin]];
      [destruct (has_mariage hand x) eqn:Hv
      |destruct (has_tierce hand x) eqn:Hv
      |destruct (has_quarteron hand x) eqn:Hv];
      try (by apply elem_of_nil in Hin);
      apply list_elem_of_singleton in Hin; simplify_eq; done.
  - case_bool_decide as Hq; [|by apply elem_of_nil in Hin].
    apply list_elem_of_singleton in Hin. simplify_eq. repeat split; try done.
    simpl. by apply bool_decide_eq_true.
Qed.

Lemma suit_in_SUITS (x : Suit) : x ∈ SUITS.
Proof. apply (bool_decide_unpack _). by destruct x. Qed.

Lemma possibles_complete trump hand t s :
  t ≠ none → t ≠ chouine → validate_announce hand t s = true →
  ∃ s', (t, s', announce_points t s trump) ∈ possibles trump hand
        ∧ announce_key t s' = announce_key t s.
Proof.
  intros Hn Hc Hv. unfold possibles.
  destruct t; try done.
  - destruct s as [x|]; [|done]. exists (Some x). split; [|done].
    apply elem_of_app. left. apply list_elem_of_bind. exists x.
    split; [|apply suit_in_SUITS]. simpl in Hv. rewrite Hv.
    apply elem_of_app. left. apply list_elem_of_here.
  - destruct s as [x|]; [|done]. exists (Some x). split; [|done].
    apply elem_of_app. left. apply list_elem_of_bind. exists x.
    split; [|apply suit_in_SUITS]. simpl in Hv. rewrite Hv.
    apply elem_of_app. right. apply elem_of_app. left. apply list_elem_of_here.
  - destruct s as [x|]; [|done]. exists (Some x). split; [|done].
    apply elem_of_app. left. apply list_elem_of_bind. exists x.
    split; [|apply suit_in_SUITS]. simpl in Hv. rewrite Hv.
    apply elem_of_app. right. apply elem_of_app. right. apply list_elem_of_here.
  - exists None. split; [|done]. apply elem_of_app. right.
    simpl in Hv. rewrite Hv.
    assert (announce_points quinte s trump = 50) as ->.
    { unfold announce_points. simpl.
      destruct (bool_decide (s = Some trump)); reflexivity. }
    apply list_elem_of_here.
Qed.

Lemma sorted_first_is_best (P : AnnounceType * option Suit * nat → Prop)
    `{!∀ x, Decision (P x)} l i x e :
  StronglySorted (λ a b, b.2 ≤ a.2) l →
  list_find P l = Some (i, x) → e ∈ l → P e → e.2 ≤ x.2.
Proof.
  intros Hsorted (Hi & _ & Hfirst)%list_find_Some Hin He.
  apply list_elem_of_lookup in Hin as [j Hj].
  destruct (decide (j < i)) as [Hlt|Hge]; [by destruct (Hfirst j e Hj Hlt)|].
  destruct (decide (j = i)) as [->|Hne]; [by simplify_eq|].
  rewrite <- (take_drop j l) in Hsorted.
  eapply (StronglySorted_app_1_elem_of _ _ _ x e) in Hsorted; [done| |].
  - apply list_elem_of_lookup. exists i. rewrite lookup_take_lt by lia. done.
  - apply list_elem_of_lookup. exists 0. by rewrite lookup_drop, Nat.add_0_r.
Qed.

Lemma apply_announce_accepts by_ t s snapshot g :
  validate_announce snapshot t s = true →
  announce_key t s ∉ announced_of by_ g →
  (apply_announce by_ t s true snapshot g).1 = Done tt.
Proof.
  intros Hv Hkey. unfold apply_announce.
  set (key := announce_key t s) in *. clearbody key.
  set (pts := announce_points t s). clearbody pts.
  eng_unfold. cbn. rewrite Hv. cbn.
  case_bool_decide; [done|].
  rewrite (bool_decide_eq_false_2 _ Hkey).
  case_bool_decide; [done|]. by destruct by_.
Qed.

Lemma ai_choose_best_announce_cases g hand :
  let trump := trump_suit g in
  let '(t, s, show) := ai_choose_best_announce g hand in
  ((t = none ∧ s = None ∧ show = false)
   ∨ (show = true ∧ t ≠ none ∧ validate_announce hand t s = true
      ∧ announce_key t s ∉ announced_opponent g))
  ∧ ∀ t' s',
      t' ≠ none → validate_announce hand t' s' = true →
      announce_key t' s' ∉ announced_opponent g →
      t ≠ none
      ∧ (t = chouine
         ∨ (t' ≠ chouine
            ∧ announce_points t' s' trump ≤ announce_points t s trump)).
Proof.
  cbn zeta. unfold ai_choose_best_announce.
  destruct (list_find _ SUITS) as [[? x]|] eqn:Hch.
  { apply list_find_Some in Hch as (_ & [Hhas Hfresh] & _).
    split; [right; done|]. intros. split; [done|by left]. }
  apply list_find_None in Hch. rewrite Forall_forall in Hch.
  set (sorted := sort_by_points (possibles (trump_suit g) hand)).
  assert (∀ t' s', t' ≠ none → validate_announce hand t' s' = true →
            announce_key t' s' ∉ announced_opponent g →
            t' ≠ chouine
            ∧ ∃ s'', (t', s'', announce_points t' s' (trump_suit g)) ∈ sorted
                     ∧ announce_key t' s'' ∉ announced_opponent g) as Hentry.
  { intros t' s' Hn Hv Hfresh.
    assert (t' ≠ chouine) as Hc.
    { intros ->. destruct s' as [x|]; [|done].
      apply (Hch x); [apply suit_in_SUITS|done]. }
    split; [done|].
    destruct (possibles_complete (trump_suit g) hand t' s' Hn Hc Hv)
      as (s'' & Hin & Hkey).
    exists s''. split; [|by rewrite Hkey].
    unfold sorted. by rewrite sort_by_points_perm. }
  destruct (list_find _ sorted) as [[i [[t s] p]]|] eqn:Hfind.
  - pose proof Hfind as (Hi & Hfresh & _)%list_find_Some.
    assert ((t, s, p) ∈ possibles (trump_suit g) hand) as Hin.
    { rewrite <- sort_by_points_perm. by eapply list_elem_of_lookup_2. }
    apply possibles_sound in Hin as (-> & Hv & Hn & Hc).
    split; [right; done|].
    intros t' s' Hn' Hv' Hfresh'. split; [done|]. right.
    destruct (Hentry t' s' Hn' Hv' Hfresh') as (Hc' & s'' & Hin' & Hfresh'').
    split; [done|].
    by apply (sorted_first_is_best _ sorted i _
                (t', s'', announce_points t' s' (trump_suit g))
                (sort_by_points_sorted _) Hfind Hin').
  - split; [by left|].
    intros t' s' Hn' Hv' Hfresh'. exfalso.
    destruct (Hentry t' s' Hn' Hv' Hfresh') as (_ & s'' & Hin' & Hfresh'').
    apply list_find_None in Hfind. rewrite Forall_forall in Hfind.
    by apply (Hfind _ Hin').
Qed.

(** X11. The announce chosen by the opponent policy is always accepted by
    [apply_announce] for the same snapshot.  It is "none" only when the
    opponent has no valid announce left to declare; it is a chouine when
    one is available, and otherwise no valid undeclared announce is worth
    more points. *)
Theorem ai_announce_choice g hand :
  let '(t, s, show) := ai_choose_best_announce g hand in
  (apply_announce opponent t s show hand g).1 = Done tt
  ∧ ∀ t' s',
      t' ≠ none → validate_announce hand t' s' = true →
      announce_key t' s' ∉ announced_opponent g →
      t ≠ none ∧ show = true
      ∧ validate_announce hand t s = true
      ∧ (announce_key t s ∉ announced_opponent g)
      ∧ (t = chouine
         ∨ (t' ≠ chouine
            ∧ announce_points t' s' (trump_suit g)
              ≤ announce_points t s (trump_suit g))).
Proof.
  pose proof (ai_choose_best_announce_cases g hand) as Hcases.
  cbn zeta in Hcases.
  destruct (ai_choose_best_announce g hand) as [[t s] show].
  destruct Hcases as [Hshape Hbest]. split.
  - destruct Hshape as [(-> & -> & ->)|(-> & _ & Hv & Hfresh)].
    + by rewrite apply_announce_none.
    + by apply apply_announce_accepts.
  - intros t' s' Hn Hv Hfresh.
    destruct (Hbest t' s' Hn Hv Hfresh) as [Hne Hopt].
    destruct Hshape as [(-> & _)|(-> & _ & Hv' & Hfresh')]; [done|].
    done.
Qed.

(** X12. Whenever it is the opponent's turn to follow a lead of the player
    and the opponent holds a card, [follower_play] accepts the card and the
    announce chosen by the policy: the automatic reply never raises. *)
Theorem ai_follow_accepted g lead :
  is_over g = false → current_lead g = Some lead →
  current_lead_by g = Some player → opponent_hand g ≠ [] →
  ∃ c, ai_choose_follow_card lead g = (Done c, g)
       ∧ let '(t, s, show) := ai_choose_best_announce g (opponent_hand g) in
         (follower_play opponent c (announce_of t s) show g).1 = Done tt.
Proof.
  intros Hover Hlead Hlead_by Hhand.
  destruct (ai_choose_follow_card_legal lead g Hhand) as (c & Hc & Hlegal & _).
  exists c. split; [done|].
  pose proof (ai_choose_best_announce_cases g (opponent_hand g)) as Hcases.
  cbn zeta in Hcases.
  destruct (ai_choose_best_announce g (opponent_hand g)) as [[t s] show].
  destruct Hcases as [Hshape _].
  assert ((apply_announce opponent t s show (opponent_hand g) g).1 = Done tt)
    as Hann.
  { destruct Hshape as [(-> & -> & ->)|(-> & _ & Hv & Hfresh)].
    - by rewrite apply_announce_none.
    - by apply apply_announce_accepts. }
  pose proof (apply_announce_board opponent t s show (opponent_hand g) g) as Hb.
  assert (c ∈ opponent_hand g) as Hin by (by eapply legal_moves_subset).
  unfold follower_play, remove_from_hand. eng_unfold.
  cbn -[compute_legal_moves talon_not_empty].
  rewrite Hover. cbn -[compute_legal_moves talon_not_empty].
  rewrite Hlead, Hlead_by. cbn -[compute_legal_moves talon_not_empty].
  rewrite (bool_decide_eq_false_2 (opponent = player)) by done.
  cbn -[compute_legal_moves talon_not_empty].
  assert (negb (talon_not_empty g)
          && negb (existsb (λ c0, card_eq c0 c)
                     (compute_legal_moves (opponent_hand g) (Some lead)
                        (trump_suit g) false)) = false) as ->.
  { destruct (talon_not_empty g) eqn:Htne; [done|].
    cbn -[compute_legal_moves talon_not_empty].
    apply negb_false_iff, existsb_exists. exists c.
    split; [by apply list_elem_of_In|by apply card_eq_iff]. }
  change (get_type (announce_of t s)) with t.
  change (get_suit (announce_of t s)) with s.
  destruct (apply_announce opponent t s show (opponent_hand g) g)
    as [[[]|msg] g1]; [|done].
  cbn [fst snd] in Hb |- *. cbn -[compute_legal_moves talon_not_empty].
  destruct (is_over g1); [done|].
  assert (opponent_hand g1 = opponent_hand g) as ->.
  { unfold board in Hb. simplify_eq. congruence. }
  apply remove_card_is_Some in Hin as [hand' ->].
  cbn. apply resolve_trick_fields.
Qed.

Lemma ai_follow_accepted_witness :
  ∃ c, ai_choose_follow_card (mkCard HEARTS rK) discard_state
       = (Done c, discard_state).
Proof.
  destruct (ai_follow_accepted discard_state (mkCard HEARTS rK))
    as (c & Hc & _); [by vm_compute..|].
  by exists c.
Defined.




Lemma remove_card_first_occurrence_witness :
  ∃ before after,
    [mkCard HEARTS rA; mkCard HEARTS rK] = before ++ mkCard HEARTS rK :: after
    ∧ [mkCard HEARTS rA] = before ++ after
    ∧ mkCard HEARTS rK ∉ before.
Proof.
  apply (proj2 (remove_card_first_occurrence
                  [mkCard HEARTS rA; mkCard HEARTS rK] (mkCard HEARTS rK))).
  reflexivity.
Defined.

Lemma apply_announce_effect_witness :
  ann_points_of player
    (apply_announce player mariage (Some HEARTS) true
       (player_hand initial_game) initial_game).2
  = ann_points_of player initial_game
    + announce_points mariage (Some HEARTS) (trump_suit initial_game).
Proof.
  apply (proj2 (apply_announce_effect player mariage (Some HEARTS) true
                  (player_hand initial_game) initial_game)).
  - reflexivity.
  - discriminate.
Defined.

Lemma ai_follow_choice_witness :
  ∃ c, ai_choose_follow_card (mkCard HEARTS rK) discard_state
       = (Done c, discard_state)
       ∧ c ∈ opponent_hand discard_state.
Proof.
  destruct (proj2 (ai_follow_choice (mkCard HEARTS rK) discard_state))
    as (c & Hc & _ & Hin & _).
  - by vm_compute.
  - exists c. split; assumption.
Defined.

Lemma ai_announce_choice_witness :
  (apply_announce opponent chouine (Some HEARTS) true chouine_hand
     initial_game).1 = Done tt.
Proof.
  exact (proj1 (ai_announce_choice initial_game chouine_hand)).
Defined.


(** ** The scores and the history of a game *)

Local Opaque resolve_trick.

Lemma follower_play_outcome by_ card announce show g :
  stock_ok g →
  let r := (follower_play by_ card announce show g).2 in
  board r = board g
  ∨ ∃ lead_card lead_by,
      let w := if bool_decide (trick_winner lead_card card (trump_suit g)
                                 (talon_not_empty g) = 0)
               then lead_by else by_ in
      current_lead g = Some lead_card ∧ current_lead_by g = Some lead_by
      ∧ current_lead r = None
      ∧ last_trick_winner r = Some w
      ∧ tricks_of w r = tricks_of w g ++ [[lead_card; card]]
      ∧ tricks_of (other w) r = tricks_of (other w) g.
Proof.
  intros Hstock. cbn zeta.
  unfold follower_play, remove_from_hand. eng_unfold. cbn.
  destruct (is_over g); [by left|].
  destruct (current_lead g) as [lead_card|] eqn:Hlead; [|by left].
  destruct (current_lead_by g) as [lead_by|] eqn:Hlead_by; [|by left].
  case_bool_decide; [by left|].
  destruct (_ && _); [by left|].
  pose proof (apply_announce_board by_ (get_type announce) (get_suit announce)
                show (hand_of by_ g) g) as Hb.
  destruct (apply_announce _ _ _ _ _ g) as [[[]|msg] g1]; cbn [fst snd] in *;
    [|by left].
  destruct (is_over g1); [by left|].
  destruct (remove_card (hand_of by_ g1) card) as [hand'|]; cbn; [|by left].
  right. exists lead_card, lead_by. split; [done|]. split; [done|].
  apply (stock_ok_board _ _ (eq_sym Hb)) in Hstock.
  pose proof (resolve_trick_effect lead_by lead_card by_ card
                (with_hand_of by_ hand' g1) (stock_ok_with_hand _ _ _ Hstock))
    as (_ & _ & Hcl & _ & _ & Hltw & Hw & Ho & _).
  cbn zeta in *. split; [done|].
  assert (trump_suit g1 = trump_suit g ∧ talon g1 = talon g
          ∧ player_tricks g1 = player_tricks g
          ∧ opponent_tricks g1 = opponent_tricks g) as (Hts & Htal & Hpt & Hot).
  { unfold board in Hb. simplify_eq. repeat split; congruence. }
  assert (trick_winner_side lead_by lead_card by_ card (with_hand_of by_ hand' g1)
          = if bool_decide (trick_winner lead_card card (trump_suit g)
                              (talon_not_empty g) = 0)
            then lead_by else by_) as Hside.
  { unfold trick_winner_side, talon_not_empty.
    destruct by_; cbn; by rewrite Hts, Htal. }
  rewrite Hside in Hltw, Hw, Ho.
  assert (∀ b, tricks_of b (with_hand_of by_ hand' g1) = tricks_of b g) as Htr.
  { intros b. destruct b, by_; cbn; congruence. }
  rewrite Htr in Hw, Ho. done.
Qed.

Lemma leader_play_keeps by_ card flag announce show g :
  let r := (leader_play by_ card flag announce show g).2 in
  last_trick_winner r = last_trick_winner g
  ∧ player_tricks r = player_tricks g
  ∧ opponent_tricks r = opponent_tricks g.
Proof.
  cbn zeta.
  unfold leader_play, remove_from_hand. eng_unfold. cbn.
  destruct (is_over g); [done|].
  case_bool_decide; [done|].
  destruct (bool_decide (leader g = 0) && bool_decide (by_ ≠ player)
            || bool_decide (leader g = 1) && bool_decide (by_ ≠ opponent));
    [done|].
  destruct (au_sept_required g && negb flag); [done|].
  pose proof (apply_announce_board by_ (get_type announce) (get_suit announce)
                show (hand_of by_ g) g) as Hb.
  destruct (apply_announce _ _ _ _ _ g) as [[[]|msg] g1]; cbn [fst snd] in *;
    assert (last_trick_winner g1 = last_trick_winner g
            ∧ player_tricks g1 = player_tricks g
            ∧ opponent_tricks g1 = opponent_tricks g) as Hkeep
      by (unfold board in Hb; simplify_eq; repeat split; congruence);
    [|done].
  destruct (is_over g1); [done|].
  destruct (remove_card (hand_of by_ g1) card) as [hand'|]; cbn; [|done].
  by destruct by_.
Qed.

Lemma won_by_one w trick b :
  won_by b [(w, trick)] = if bool_decide (w = b) then [trick] else [].
Proof.
  unfold won_by. rewrite filter_cons, filter_nil. cbn.
  case_decide; by case_bool_decide.
Qed.

Lemma won_by_app b tricks1 tricks2 :
  won_by b (tricks1 ++ tricks2) = won_by b tricks1 ++ won_by b tricks2.
Proof. unfold won_by. by rewrite filter_app, fmap_app. Qed.

Lemma exec_resolved_trick op g :
  stock_ok g →
  let r := (exec op g).2 in
  last_trick_winner r
  = from_option (λ t, Some t.1) (last_trick_winner g) (resolved_trick op g)
  ∧ ∀ b, tricks_of b r
         = tricks_of b g ++ won_by b (option_list (resolved_trick op g)).
Proof.
  intros Hstock. cbn zeta.
  assert (∀ r, last_trick_winner r = last_trick_winner g →
               player_tricks r = player_tricks g →
               opponent_tricks r = opponent_tricks g →
               last_trick_winner r = last_trick_winner g
               ∧ ∀ b, tricks_of b r = tricks_of b g ++ won_by b []) as Hsame.
  { intros r -> Hpt Hot. split; [done|].
    intros []; cbn; by rewrite app_nil_r. }
  unfold resolved_trick.
  destruct op as [by_ card flag announce show
                 | by_ card announce show | |].
  - simpl.
    destruct (leader_play_keeps by_ card flag announce show g)
      as (Hltw & Hpt & Hot).
    destruct (Hsame _ Hltw Hpt Hot) as [-> Htr].
    split; [|intros b; rewrite Htr]; by repeat case_match.
  - simpl.
    destruct (follower_play_outcome by_ card announce show g Hstock)
      as [Hb|(lead_card & lead_by & Hlead & Hlead_by & Hcl & Hltw & Hw & Ho)].
    + assert (current_lead (follower_play by_ card announce show g).2
              = current_lead g
              ∧ last_trick_winner (follower_play by_ card announce show g).2
                = last_trick_winner g
              ∧ player_tricks (follower_play by_ card announce show g).2
                = player_tricks g
              ∧ opponent_tricks (follower_play by_ card announce show g).2
                = opponent_tricks g) as (Hcl & Hltw & Hpt & Hot).
      { unfold board in Hb. simplify_eq. repeat split; congruence. }
      destruct (Hsame _ Hltw Hpt Hot) as [-> Htr].
      rewrite Hcl.
      split; [|intros b; rewrite Htr];
        by destruct (current_lead g), (current_lead_by g).
    + cbn zeta in *. rewrite Hlead, Hlead_by, Hcl, Hltw.
      split; [done|]. intros b. cbn [option_list option_rect]. rewrite won_by_one.
      set (w := if bool_decide (_ = 0) then lead_by else by_) in *.
      case_bool_decide as Hwb.
      * by subst b.
      * assert (b = other w) as -> by (by destruct b, w).
        by rewrite app_nil_r.
  - simpl.
    assert (last_trick_winner (exchange7 g).2 = last_trick_winner g
            ∧ player_tricks (exchange7 g).2 = player_tricks g
            ∧ opponent_tricks (exchange7 g).2 = opponent_tricks g)
      as (Hltw & Hpt & Hot).
    { unfold exchange7. eng_unfold. cbn. by eng_cases. }
    destruct (Hsame _ Hltw Hpt Hot) as [-> Htr].
    split; [|intros b; rewrite Htr]; by repeat case_match.
  - simpl.
    assert (last_trick_winner (maybe_finish_game g).2 = last_trick_winner g
            ∧ player_tricks (maybe_finish_game g).2 = player_tricks g
            ∧ opponent_tricks (maybe_finish_game g).2 = opponent_tricks g)
      as (Hltw & Hpt & Hot).
    { pose proof (maybe_finish_game_board g) as Hb.
      unfold board in Hb. simplify_eq. repeat split; congruence. }
    destruct (Hsame _ Hltw Hpt Hot) as [-> Htr].
    split; [|intros b; rewrite Htr]; by repeat case_match.
Qed.

Lemma run_tricks_played ops g :
  reachable g →
  last_trick_winner (run ops g)
  = from_option Some (last_trick_winner g) (last (trick_winners ops g))
  ∧ ∀ b, tricks_of b (run ops g) = tricks_of b g ++ tricks_won b ops g.
Proof.
  unfold trick_winners, tricks_won.
  revert g. induction ops as [|op ops IH]; intros g Hreach.
  { split; [done|]. intros b. unfold won_by. cbn. by rewrite app_nil_r. }
  change (run (op :: ops) g) with (run ops (exec op g).2).
  destruct (IH _ (reachable_step g op Hreach)) as [-> Htr].
  destruct (exec_resolved_trick op g) as [-> Htr1]; [by apply reachable_inv|].
  cbn zeta in *. simpl. split.
  - rewrite fmap_app, last_app.
    destruct (last (tricks_played ops (exec op g).2).*1); [done|].
    by destruct (resolved_trick op g).
  - intros b. by rewrite Htr, Htr1, won_by_app, app_assoc.
Qed.

(** C8.  The running score of a side is the sum of [CARD_POINTS] over the
    cards of its trick pile plus its announce points, with no bonus.  The
    final total adds 10 to the side recorded in [last_trick_winner] and to
    that side only.  [resolve_trick] records there the winner of the trick
    it resolves.  In every game played from a fresh deal the pile of a side
    holds the tricks it has won by the rule engine, and the recorded side is
    the winner of the last trick completed so far (no side before the first
    trick), so the bonus goes to the winner of the chronologically last
    trick. *)
Theorem running_and_final_scores g :
  let rs := scores_so_far g in
  let fs := final_scores g in
  rs_cards (rs_player rs) = points (concat (player_tricks g))
  ∧ rs_cards (rs_opponent rs) = points (concat (opponent_tricks g))
  ∧ rs_announces (rs_player rs) = player_ann_points g
  ∧ rs_announces (rs_opponent rs) = opponent_ann_points g
  ∧ rs_total (rs_player rs)
    = points (concat (player_tricks g)) + player_ann_points g
  ∧ rs_total (rs_opponent rs)
    = points (concat (opponent_tricks g)) + opponent_ann_points g
  ∧ fs_cards (fs_player fs) = points (concat (player_tricks g))
  ∧ fs_cards (fs_opponent fs) = points (concat (opponent_tricks g))
  ∧ fs_total (fs_player fs) = rs_total (rs_player rs) + dix_de_der player g
  ∧ fs_total (fs_opponent fs)
    = rs_total (rs_opponent rs) + dix_de_der opponent g
  ∧ fs_dix_de_der (fs_player fs) = dix_de_der player g
  ∧ fs_dix_de_der (fs_opponent fs) = dix_de_der opponent g
  ∧ dix_de_der player g + dix_de_der opponent g ≤ 10
  ∧ (∀ lead_by lead_card follow_by follow_card,
       last_trick_winner
         (resolve_trick lead_by lead_card follow_by follow_card g).2
       = Some (if bool_decide (trick_winner lead_card follow_card (trump_suit g)
                                 (talon_not_empty g) = 0)
               then lead_by else follow_by))
  ∧ (∀ gid deck g0 ops,
       deck ≡ₚ new_deck → new_game gid deck = Some g0 → g = run ops g0 →
       player_tricks g = tricks_won player ops g0
       ∧ opponent_tricks g = tricks_won opponent ops g0
       ∧ last_trick_winner g = last (trick_winners ops g0)
       ∧ ∀ b, dix_de_der b g
              = if bool_decide (last (trick_winners ops g0) = Some b)
                then 10 else 0).
Proof.
  cbn zeta.
  assert (∀ gid deck g0 ops,
            deck ≡ₚ new_deck → new_game gid deck = Some g0 → g = run ops g0 →
            last_trick_winner g = last (trick_winners ops g0)
            ∧ ∀ b, tricks_of b g = tricks_won b ops g0) as Hhist.
  { intros gid deck g0 ops Hperm Hnew ->.
    destruct (run_tricks_played ops g0) as [-> Htr];
      [by eapply reachable_new|].
    unfold new_game in Hnew.
    destruct (deck !! 10); simplify_eq/=.
    split; [by destruct (last (trick_winners ops _))|].
    intros b. rewrite Htr. by destruct b. }
  unfold scores_so_far, final_scores, dix_de_der. cbn.
  rewrite !compute_cards_points_concat.
  repeat match goal with |- _ ∧ _ => split end;
    try (intros; apply resolve_trick_fields);
    try (repeat case_bool_decide; simplify_eq; cbn; lia).
  intros gid deck g0 ops Hperm Hnew Hrun.
  destruct (Hhist _ _ _ _ Hperm Hnew Hrun) as [Hltw Htr].
  split; [exact (Htr player)|]. split; [exact (Htr opponent)|].
  split; [done|]. intros b. by rewrite Hltw.
Qed.

Lemma running_and_final_scores_witness :
  last (trick_winners discard_trace initial_game) = Some player
  ∧ player_tricks discard_state = tricks_won player discard_trace initial_game
  ∧ opponent_tricks discard_state
    = tricks_won opponent discard_trace initial_game
  ∧ last_trick_winner discard_state
    = last (trick_winners discard_trace initial_game)
  ∧ ∀ b, dix_de_der b discard_state
         = if bool_decide (last (trick_winners discard_trace initial_game)
                           = Some b)
           then 10 else 0.
Proof.
  split; [vm_compute; reflexivity|].
  apply (running_and_final_scores discard_state) with "g" new_deck.
  - reflexivity.
  - exact initial_game_new.
  - reflexivity.
Defined.
